(** * Worker listing, disassociation and invite sending of the PaaS CLI

    A shallow embedding of [commands/worker/list.go] ([CmdList]), of the
    [disassociate] package ([Disassociate]) and of the [send] sub-command of
    the [invites] package, with the properties their specification states.

    Go maps are [gmap]s, Go's [int] is a [Z] wrapped to 64 bits on every
    addition, the interfaces [IServices], [IWorker] and [IJobs] are type
    classes, and what a command prints is the list of its output events. *)

From stdpp Require Import base gmap list strings pretty fin_maps.
From Stdlib Require Import ZArith Lia Ascii.

Local Open Scope string_scope.
Local Open Scope Z_scope.

(** ** Go's [int] *)

Module GoInt.

Definition min_int : Z := - 2 ^ 63.
Definition max_int : Z := 2 ^ 63 - 1.

Definition in_range (z : Z) : Prop := min_int ≤ z ≤ max_int.

(** Two's complement wrap-around of a mathematical integer. *)
Definition wrap (z : Z) : Z := (z + 2 ^ 63) `mod` 2 ^ 64 - 2 ^ 63.

(** [a + b] and [a += b] on [int]. *)
Definition add (a b : Z) : Z := wrap (a + b).

End GoInt.

(** ** Data of the [models] package, as far as the commands read it *)

(** Modelled from the spec: [models.Service] is declared outside the listed
    sources; the command reads its identifier and its declared worker scale
    (the spec's ServiceRef). *)
Record models_Service : Type := {
  ID : string;
  WorkerScale : Z;
}.

(** Modelled from the spec: [models.Workers] is declared outside the listed
    sources; the command ranges over its [Workers] map from target to
    scale (the spec's WorkerDeclaration). *)
Record models_Workers : Type := {
  Workers : gmap string Z;
}.

(** Modelled from the spec: [models.Job] is declared outside the listed
    sources; the command reads the target and the status of a job (the
    spec's JobRecord). *)
Record models_Job : Type := {
  Target : string;
  Status : string;
}.

(** A Go [error], identified with its message. *)
Definition error : Type := string.

(** A Go result pair [(p *T, err error)]; [None] is [nil] on both sides. *)
Definition result (T : Type) : Type := (option T * option error)%type.

(** ** The interfaces [CmdList] is given *)

Class IServices : Type := {
  RetrieveByLabel : string → result models_Service;
}.

Class IWorker : Type := {
  Retrieve : string → result models_Workers;
}.

Class IJobs : Type := {
  RetrieveByType : string → string → Z → Z → result (list models_Job);
}.

(** ** What a command shows and how it ends *)

Inductive Event : Type :=
  | Printf (line : string)             (* logrus.Printf / fmt.Printf / fmt.Println *)
  | Render (data : list (list string)) (* table.AppendBulk(data); table.Render() *)
  | CallSend (email role envName : string). (* CmdSend(email, role, envName, ...) *)

Inductive Ending : Type :=
  | Return (err : option error)
  | Panic                              (* nil pointer dereference *)
  | Fatal (msg : string).              (* logrus.Fatal *)

Record Run : Type := {
  out : list Event;
  ending : Ending;
}.

(** ** Iteration order of [range] over a map

    Go leaves the order in which [range] visits a map unspecified; a run
    fixes one enumeration of each map it ranges over. *)

Definition RangeOrder : Type := ∀ V : Type, gmap string V → list (string * V).

Definition valid_range (range : RangeOrder) : Prop :=
  ∀ (V : Type) (m : gmap string V), range V m ≡ₚ map_to_list m.

(** The enumeration stdpp gives, and the same one backwards. *)
Definition range_forward : RangeOrder := λ V m, map_to_list m.
Definition range_backward : RangeOrder := λ V m, reverse (map_to_list m).

(** ** [CmdList] *)

Record workerJob : Type := {
  scale : Z;
  running : Z;
}.

Definition quote : string := String "034"%char EmptyString.
Definition newline : string := String "010"%char EmptyString.

(** [fmt.Sprintf("%d", n)] *)
Definition sprintf_d (n : Z) : string := pretty n.

(** Lines 34-37: the summary starts from the declarations. *)
Definition init_summary (range : RangeOrder) (workers : gmap string Z)
  : gmap string workerJob :=
  foldl (λ workerJobs '(target, scale),
           <[target := {| scale := scale; running := 0 |}]> workerJobs)
        ∅ (range Z workers).

(** Lines 44-49: the body of the loop over the jobs. *)
Definition count_job (workerJobs : gmap string workerJob) (j : models_Job)
  : gmap string workerJob :=
  let workerJobs :=
    match workerJobs !! Target j with
    | Some _ => workerJobs
    | None => <[Target j := {| scale := 0; running := 0 |}]> workerJobs
    end in
  if String.eqb (Status j) "running"
  then alter (λ wj, {| scale := scale wj; running := GoInt.add (running wj) 1 |})
             (Target j) workerJobs
  else workerJobs.

(** Lines 43-50. *)
Definition count_jobs (workerJobs : gmap string workerJob)
    (jobs : list models_Job) : gmap string workerJob :=
  foldl count_job workerJobs jobs.

(** The reconciliation: lines 34-37 followed by lines 43-50. *)
Definition reconcile (range : RangeOrder) (workers : gmap string Z)
    (jobs : list models_Job) : gmap string workerJob :=
  count_jobs (init_summary range workers) jobs.

Definition header : list string := ["TARGET"; "SCALE"; "RUNNING JOBS"].

Definition row (entry : string * workerJob) : list string :=
  [entry.1; sprintf_d (scale entry.2); sprintf_d (running entry.2)].

(** Lines 52-57: the table data and the total, in one pass over the map. *)
Definition tabulate (entries : list (string * workerJob))
  : list (list string) * Z :=
  foldl (λ '(data, total) entry,
           ((data ++ [row entry])%list, GoInt.add total (scale entry.2)))
        ([header], 0) entries.

Definition not_found (svcName : string) : error :=
  "Could not find a service with the label " +:+ quote +:+ svcName +:+ quote
  +:+ ". You can list services with the " +:+ quote +:+ "datica services list"
  +:+ quote +:+ " command.".

Definition no_workers_line (svcName : string) : string :=
  "No running workers found for " +:+ svcName.

Definition usage_line (total : string) (available : Z) (svcName : string)
  : string :=
  newline +:+ "You are using " +:+ total +:+ " out of your available "
  +:+ sprintf_d available +:+ " workers for " +:+ svcName.

Definition failed (e : error) : Run := {| out := []; ending := Return (Some e) |}.

Definition CmdList (range : RangeOrder) (svcName : string)
    `{iw : IWorker} `{isv : IServices} `{ij : IJobs} : Run :=
  let '(service, err) := RetrieveByLabel svcName in
  match err with Some e => failed e | None =>
  match service with None => failed (not_found svcName) | Some service =>
  let '(workers, err) := Retrieve (ID service) in
  match err with Some e => failed e | None =>
  let '(jobs, err) := RetrieveByType (ID service) "worker" 1 1000 in
  match err with Some e => failed e | None =>
  match workers with None => {| out := []; ending := Panic |} | Some workers =>
  let workerJobs := init_summary range (Workers workers) in
  if bool_decide (size workerJobs = 0%nat) then
    {| out := [Printf (no_workers_line svcName);
               Printf (usage_line "0" (WorkerScale service) svcName)];
       ending := Return None |}
  else
  match jobs with
  | None => {| out := []; ending := Panic |}
  | Some jobs =>
    let workerJobs := count_jobs workerJobs jobs in
    let '(data, total) := tabulate (range workerJob workerJobs) in
    {| out := [Render data;
               Printf (usage_line (sprintf_d total) (WorkerScale service) svcName)];
       ending := Return None |}
  end end end end end end.

(** The running jobs of a target among the job records. *)
Definition running_jobs (t : string) (jobs : list models_Job) : nat :=
  length (filter (λ j, Target j = t ∧ Status j = "running") jobs).

(** The targets the job records name. *)
Definition job_targets (jobs : list models_Job) : list string :=
  Target <$> jobs.

(** The exact sum of the scales of a list of entries, and of a summary. *)
Definition sum_scales (entries : list (string * workerJob)) : Z :=
  foldr (λ entry acc, scale entry.2 + acc) 0 entries.

Definition scale_sum (summary : gmap string workerJob) : Z :=
  sum_scales (map_to_list summary).

(** The exact sum of the declared scales. *)
Definition declared_sum (workers : gmap string Z) : Z :=
  foldr (λ entry acc, entry.2 + acc) 0 (map_to_list workers).

(** The three fetches of [CmdList] succeed and give this service, these
    declarations and these job records. *)
Definition fetched `{iw : IWorker} `{isv : IServices} `{ij : IJobs}
    (svcName : string) (service : models_Service)
    (D : gmap string Z) (J : list models_Job) : Prop :=
  RetrieveByLabel svcName = (Some service, None) ∧
  Retrieve (ID service) = (Some {| Workers := D |}, None) ∧
  RetrieveByType (ID service) "worker" 1 1000 = (Some J, None).

(** ** [CmdList] without the guard on empty declarations

    The single code path the specification's design notes propose: the
    reconciler always runs, also on an empty declarations mapping. *)
Definition CmdList_unified (range : RangeOrder) (svcName : string)
    `{iw : IWorker} `{isv : IServices} `{ij : IJobs} : Run :=
  let '(service, err) := RetrieveByLabel svcName in
  match err with Some e => failed e | None =>
  match service with None => failed (not_found svcName) | Some service =>
  let '(workers, err) := Retrieve (ID service) in
  match err with Some e => failed e | None =>
  let '(jobs, err) := RetrieveByType (ID service) "worker" 1 1000 in
  match err with Some e => failed e | None =>
  match workers, jobs with
  | Some workers, Some jobs =>
    let workerJobs := reconcile range (Workers workers) jobs in
    let '(data, total) := tabulate (range workerJob workerJobs) in
    {| out := [Render data;
               Printf (usage_line (sprintf_d total) (WorkerScale service) svcName)];
       ending := Return None |}
  | _, _ => {| out := []; ending := Panic |}
  end end end end end.

(** ** [Disassociate] *)

(** Modelled from the spec: [models.Settings] is declared outside the listed
    sources; of the persisted configuration the commands use the breadcrumb
    table from alias to environment and the name of the environment. *)
Record models_Settings : Type := {
  Environments : gmap string string;
  EnvironmentName : string;
}.

(** Modelled from the spec: [config.DeleteBreadcrumb] is outside the listed
    sources; it removes the alias-to-environment mapping of the alias from
    the persisted configuration. *)
Definition DeleteBreadcrumb (alias : string) (settings : models_Settings)
  : models_Settings :=
  {| Environments := delete alias (Environments settings);
     EnvironmentName := EnvironmentName settings |}.

Definition git_remote_warning : string :=
  "WARNING: Your existing git remote *has not* been removed."
  +:+ newline +:+ newline.

(** [(d *SDisassociate) Disassociate]: the settings behind [d.Settings]
    after the call, and what the call printed and returned. *)
Definition Disassociate (alias : string) (settings : models_Settings)
  : models_Settings * Run :=
  let settings := DeleteBreadcrumb alias settings in
  (settings,
   {| out := [Printf git_remote_warning;
              Printf ("Association cleared." +:+ newline)];
      ending := Return None |}).

Class IDisassociate : Type := {
  Disassociate_method : string → models_Settings → models_Settings * Run;
}.

#[export] Instance SDisassociate : IDisassociate :=
  {| Disassociate_method := Disassociate |}.

Definition CmdDisassociate (alias : string) `{id : IDisassociate}
    (settings : models_Settings) : models_Settings * Run :=
  Disassociate_method alias settings.

(** ** The action of [invites send] *)

(** Lines 134-137 of the invites package. *)
Definition send_role (adminRole : bool) : string :=
  let role := "member" in
  if adminRole then "admin" else role.

(** The [Action] of [SendSubCmd]: [signin] and [association] are the errors
    of [Signin] and [CheckRequiredAssociation], [member] and [adminRole] the
    values of the options [-m] and [-a], and [CmdSend] the send operation. *)
Definition SendSubCmd_Action (signin association : option error)
    (email : string) (member adminRole : bool) (settings : models_Settings)
    (CmdSend : string → string → string → option error) : Run :=
  match signin with
  | Some e => {| out := []; ending := Fatal e |}
  | None =>
    match association with
    | Some e => {| out := []; ending := Fatal e |}
    | None =>
      let role := send_role adminRole in
      let envName := EnvironmentName settings in
      match CmdSend email role envName with
      | Some e => {| out := [CallSend email role envName]; ending := Fatal e |}
      | None => {| out := [CallSend email role envName]; ending := Return None |}
      end
    end
  end.

(** One round of the second loop, read at a target. *)
Definition bump (status : string) (wj : workerJob) : workerJob :=
  if String.eqb status "running"
  then {| scale := scale wj; running := GoInt.add (running wj) 1 |}
  else wj.

(** The run shows a table with one row per entry, in the order of the
    entries, followed by one line. *)
Definition renders (run : Run) (entries : list (string * workerJob)) : Prop :=
  ∃ line, out run = [Render (header :: (row <$> entries)); Printf line].

(** ** Sample inputs *)

Module Sample.

Definition service : models_Service := {| ID := "svc-1"; WorkerScale := 5 |}.

Definition services : IServices :=
  {| RetrieveByLabel := λ _, (Some service, None) |}.

Definition workers (D : gmap string Z) : IWorker :=
  {| Retrieve := λ _, (Some {| Workers := D |}, None) |}.

Definition jobs (J : list models_Job) : IJobs :=
  {| RetrieveByType := λ _ _ _ _, (Some J, None) |}.

Definition jobs_failing (e : error) : IJobs :=
  {| RetrieveByType := λ _ _ _ _, (None, Some e) |}.

Definition job (target status : string) : models_Job :=
  {| Target := target; Status := status |}.

(** Scenario 1 of the specification. *)
Definition D1 : gmap string Z := {[ "worker-a" := 2; "worker-b" := 1 ]}.
Definition J1 : list models_Job :=
  [job "worker-a" "running"; job "worker-a" "running"; job "worker-b" "pending"].

(** Scenario 3 of the specification. *)
Definition D3 : gmap string Z := {[ "worker-a" := 1 ]}.
Definition J3 : list models_Job := [job "worker-x" "running"].

Definition settings : models_Settings :=
  {| Environments := {[ "prod" := "env-1" ]}; EnvironmentName := "production" |}.

End Sample.

(** ** [(w *SWorker) Retrieve] *)

(** Modelled from the spec: the fields of [models.Settings] that [Retrieve]
    reads through [w.Settings]; [models.Settings] is declared outside the
    listed sources (the session inputs and the API host of the spec). *)
Record worker_Settings : Type := {
  SessionToken : string;
  Version : string;
  Pod : string;
  UsersID : string;
  PaasHost : string;
  PaasHostVersion : string;
  EnvironmentID : string;
}.

(** The HTTP manager behind [w.Settings.HTTPManager], over its own type of
    headers. [ConvertResp] decodes into the struct it is given a pointer to:
    it takes the struct as it is and gives it back as it leaves it. *)
Class IHTTPManager (Headers : Type) : Type := {
  GetHeaders : string → string → string → string → Headers;
  Get : option string → string → Headers → string * Z * option error;
  ConvertResp : string → Z → models_Workers → models_Workers * option error;
}.

(** The URL of line 73. *)
Definition workers_url (w : worker_Settings) (svcID : string) : string :=
  PaasHost w +:+ PaasHostVersion w +:+ "/environments/" +:+ EnvironmentID w
  +:+ "/services/" +:+ svcID +:+ "/workers".

(** Lines 71-83. *)
Definition SWorker_Retrieve {Headers : Type} `{hm : IHTTPManager Headers}
    (w : worker_Settings) (svcID : string) : result models_Workers :=
  let headers := GetHeaders (SessionToken w) (Version w) (Pod w) (UsersID w) in
  let '(resp, statusCode, err) := Get None (workers_url w svcID) headers in
  match err with
  | Some e => (None, Some e)
  | None =>
    let workers := {| Workers := ∅ |} in
    let '(workers, err) := ConvertResp resp statusCode workers in
    match err with
    | Some e => (None, Some e)
    | None => (Some workers, None)
    end
  end.

(** [SWorker] as the [IWorker] that [CmdList] is given. *)
Definition SWorker {Headers : Type} `{hm : IHTTPManager Headers}
    (w : worker_Settings) : IWorker :=
  {| Retrieve := SWorker_Retrieve w |}.

(** ** The actions of [invites accept], [invites list] and [invites rm] *)

Inductive Call : Type :=
  | CallAccept (inviteCode : string)   (* the call of CmdAccept *)
  | CallList (envName : string)        (* the call of the invites CmdList *)
  | CallRm (inviteID : string).        (* the call of CmdRm *)

Record ActionRun : Type := {
  calls : list Call;
  fate : Ending;
}.

(** The [Action] of [AcceptSubCmd]: [signin] is the error of [Signin] and
    [CmdAccept] the accept operation. *)
Definition AcceptSubCmd_Action (signin : option error) (inviteCode : string)
    (CmdAccept : string → option error) : ActionRun :=
  match signin with
  | Some e => {| calls := []; fate := Fatal e |}
  | None =>
    match CmdAccept inviteCode with
    | Some e => {| calls := [CallAccept inviteCode]; fate := Fatal e |}
    | None => {| calls := [CallAccept inviteCode]; fate := Return None |}
    end
  end.

(** The [Action] of [ListSubCmd]; [invites_CmdList] is the [CmdList] of the
    invites package. *)
Definition ListSubCmd_Action (signin association : option error)
    (settings : models_Settings) (invites_CmdList : string → option error)
  : ActionRun :=
  match signin with
  | Some e => {| calls := []; fate := Fatal e |}
  | None =>
    match association with
    | Some e => {| calls := []; fate := Fatal e |}
    | None =>
      let envName := EnvironmentName settings in
      match invites_CmdList envName with
      | Some e => {| calls := [CallList envName]; fate := Fatal e |}
      | None => {| calls := [CallList envName]; fate := Return None |}
      end
    end
  end.

(** The [Action] of [RmSubCmd]. *)
Definition RmSubCmd_Action (signin association : option error)
    (inviteID : string) (CmdRm : string → option error) : ActionRun :=
  match signin with
  | Some e => {| calls := []; fate := Fatal e |}
  | None =>
    match association with
    | Some e => {| calls := []; fate := Fatal e |}
    | None =>
      match CmdRm inviteID with
      | Some e => {| calls := [CallRm inviteID]; fate := Fatal e |}
      | None => {| calls := [CallRm inviteID]; fate := Return None |}
      end
    end
  end.

(** The first error of a sequence of steps, in their order. *)
Definition first_error (steps : list (option error)) : option error :=
  foldr (λ step rest, match step with Some e => Some e | None => rest end)
        None steps.

(** ** Measures of the summary and of the table *)

(** The exact sum of the running counts of a list of entries. *)
Definition sum_running (entries : list (string * workerJob)) : Z :=
  foldr (λ entry acc, running entry.2 + acc) 0 entries.

(** The job records whose status is "running". *)
Definition running_total (jobs : list models_Job) : nat :=
  length (filter (λ j, Status j = "running") jobs).

(** The first column of the rows of a table. *)
Definition target_column (rows : list (list string)) : list string :=
  (λ r, default "" (head r)) <$> rows.

(** ** Calls that may panic

    A Go interface value may be nil, and a method call on a nil interface
    panics, as may the method itself. Here a call is a function to an
    option: [None] is a call that panics, [Some r] one that returns [r]. *)

Definition panicked : Run := {| out := []; ending := Panic |}.

(** Lines 30-68 of [CmdList], from what the three fetches returned. *)
Definition CmdList_body (range : RangeOrder) (svcName : string)
    (service : models_Service) (workers : option models_Workers)
    (jobs : option (list models_Job)) : Run :=
  match workers with
  | None => panicked
  | Some workers =>
    let workerJobs := init_summary range (Workers workers) in
    if bool_decide (size workerJobs = 0%nat) then
      {| out := [Printf (no_workers_line svcName);
                 Printf (usage_line "0" (WorkerScale service) svcName)];
         ending := Return None |}
    else
    match jobs with
    | None => panicked
    | Some jobs =>
      let workerJobs := count_jobs workerJobs jobs in
      let '(data, total) := tabulate (range workerJob workerJobs) in
      {| out := [Render data;
                 Printf (usage_line (sprintf_d total) (WorkerScale service)
                                    svcName)];
         ending := Return None |}
    end
  end.

(** [CmdList] with its three interface calls (lines 14, 21 and 26) as calls
    that may panic. *)
Definition CmdList_go (range : RangeOrder) (svcName : string)
    (is_RetrieveByLabel : string → option (result models_Service))
    (iw_Retrieve : string → option (result models_Workers))
    (ij_RetrieveByType :
       string → string → Z → Z → option (result (list models_Job))) : Run :=
  match is_RetrieveByLabel svcName with
  | None => panicked
  | Some (service, err) =>
    match err with Some e => failed e | None =>
    match service with None => failed (not_found svcName) | Some service =>
    match iw_Retrieve (ID service) with
    | None => panicked
    | Some (workers, err) =>
      match err with Some e => failed e | None =>
      match ij_RetrieveByType (ID service) "worker" 1 1000 with
      | None => panicked
      | Some (jobs, err) =>
        match err with Some e => failed e | None =>
        CmdList_body range svcName service workers jobs
        end
      end end
    end end end
  end.

(** The receiver of [Retrieve]: line 72 reads [w.Settings] and calls a
    method of [w.Settings.HTTPManager], so a nil receiver, nil settings or
    a nil HTTP manager make the call panic. *)
Inductive SWorker_ptr (Headers : Type) : Type :=
  | SWorker_nil
  | SWorker_nil_Settings
  | SWorker_nil_HTTPManager (w : worker_Settings)
  | SWorker_ready (w : worker_Settings) (hm : IHTTPManager Headers).

Arguments SWorker_nil {Headers}.
Arguments SWorker_nil_Settings {Headers}.
Arguments SWorker_nil_HTTPManager {Headers} w.
Arguments SWorker_ready {Headers} w hm.

(** [Retrieve] as a call that may panic; the methods of the HTTP manager
    are taken to return. *)
Definition SWorker_Retrieve_go {Headers : Type} (p : SWorker_ptr Headers)
    (svcID : string) : option (result models_Workers) :=
  match p with
  | SWorker_ready w hm => Some (@SWorker_Retrieve Headers hm w svcID)
  | _ => None
  end.

(** ** Sample HTTP manager *)

Module SampleHTTP.

Definition settings : worker_Settings :=
  {| SessionToken := "token"; Version := "3.0"; Pod := "pod01";
     UsersID := "user-1"; PaasHost := "https://paas.example";
     PaasHostVersion := "/v1"; EnvironmentID := "env-1" |}.

(** Answers the workers URL of service svc-1 with scenario 1, and fails on
    every other URL. *)
Definition manager : IHTTPManager (list string) :=
  {| GetHeaders := λ token version pod user, [token; version; pod; user];
     Get := λ _ url _,
       if String.eqb url "https://paas.example/v1/environments/env-1/services/svc-1/workers"
       then ("{}", 200, None)
       else ("", 404, Some "404 Not Found");
     ConvertResp := λ _ _ _, ({| Workers := Sample.D1 |}, None) |}.

(** A manager whose every request fails. *)
Definition offline : IHTTPManager (list string) :=
  {| GetHeaders := λ token version pod user, [token; version; pod; user];
     Get := λ _ _ _, ("", 0, Some "connection refused");
     ConvertResp := λ _ _ workers, (workers, None) |}.

End SampleHTTP.

(** * Properties *)

(** ** Arithmetic of Go's [int] *)

Module GoIntFacts.
Import GoInt.

Lemma wrap_in_range z : in_range (wrap z).
Proof.
  unfold in_range, wrap, min_int, max_int.
  pose proof (Z.mod_pos_bound (z + 2 ^ 63) (2 ^ 64) ltac:(lia)). lia.
Qed.

Lemma wrap_id z : in_range z → wrap z = z.
Proof.
  unfold in_range, wrap, min_int, max_int. intros Hz.
  rewrite Z.mod_small; lia.
Qed.

Lemma wrap_add_l a b : wrap (wrap a + b) = wrap (a + b).
Proof.
  unfold wrap.
  replace ((a + 2 ^ 63) `mod` 2 ^ 64 - 2 ^ 63 + b + 2 ^ 63)
    with ((a + 2 ^ 63) `mod` 2 ^ 64 + b) by lia.
  rewrite Zplus_mod_idemp_l. f_equal. f_equal. lia.
Qed.

Lemma iter_incr n r :
  in_range r → Nat.iter n (λ r, add r 1) r = wrap (r + Z.of_nat n).
Proof.
  intros Hr. induction n as [|n IH].
  - simpl. rewrite Z.add_0_r. by rewrite wrap_id.
  - rewrite Nat.iter_succ, IH. unfold add. rewrite wrap_add_l.
    f_equal. lia.
Qed.

Lemma zero_in_range : in_range 0.
Proof. unfold in_range, min_int, max_int. lia. Qed.

End GoIntFacts.

(** ** The reconciliation loops *)

Section reconciliation.
Context (range : RangeOrder) (range_ok : valid_range range).

Lemma range_NoDup_keys {V} (m : gmap string V) : NoDup (range V m).*1.
Proof.
  rewrite (range_ok V m). apply NoDup_fst_map_to_list.
Qed.

Lemma range_elem_of {V} (m : gmap string V) t v :
  (t, v) ∈ range V m ↔ m !! t = Some v.
Proof. rewrite (range_ok V m). apply elem_of_map_to_list. Qed.

(** The first loop, on any list of declarations without repeated target. *)
Lemma init_fold_lookup (l : list (string * Z)) :
  NoDup l.*1 →
  ∀ (acc : gmap string workerJob) t,
    foldl (λ workerJobs '(target, scale),
             <[target := {| scale := scale; running := 0 |}]> workerJobs)
          acc l !! t
    = match (list_to_map l : gmap string Z) !! t with
      | Some s => Some {| scale := s; running := 0 |}
      | None => acc !! t
      end.
Proof.
  induction l as [|[t' s'] l IH]; intros Hnd acc t; [done|].
  apply NoDup_cons in Hnd as [Hfresh Hnd]. cbn [foldl list_to_map foldr].
  rewrite IH by done. simpl.
  destruct (decide (t' = t)) as [->|Hne].
  - rewrite (not_elem_of_list_to_map_1 l t) by done.
    by rewrite !lookup_insert_eq.
  - by rewrite !lookup_insert_ne.
Qed.

Lemma init_summary_lookup (D : gmap string Z) t :
  init_summary range D !! t
  = (λ s, {| scale := s; running := 0 |}) <$> D !! t.
Proof.
  unfold init_summary. rewrite init_fold_lookup by apply range_NoDup_keys.
  rewrite (list_to_map_proper (M := gmap string) (range Z D) (map_to_list D));
    [|apply range_NoDup_keys|apply range_ok].
  rewrite list_to_map_to_list, lookup_empty. by destruct (D !! t).
Qed.

Lemma init_summary_fmap (D : gmap string Z) :
  init_summary range D = (λ s, {| scale := s; running := 0 |}) <$> D.
Proof. apply map_eq. intros t. by rewrite init_summary_lookup, lookup_fmap. Qed.

Lemma init_summary_empty (D : gmap string Z) :
  size (init_summary range D) = 0%nat ↔ D = ∅.
Proof.
  rewrite init_summary_fmap, map_size_fmap. apply map_size_empty_iff.
Qed.

End reconciliation.

Lemma count_job_lookup (S : gmap string workerJob) j t :
  count_job S j !! t
  = if decide (Target j = t)
    then Some (bump (Status j) (default {| scale := 0; running := 0 |} (S !! t)))
    else S !! t.
Proof.
  unfold count_job, bump. destruct (decide (Target j = t)) as [<-|Hne].
  - destruct (S !! Target j) as [wj|] eqn:Hl; destruct (String.eqb _ _); simpl;
      rewrite ?lookup_alter_eq, ?lookup_insert_eq, ?Hl; done.
  - destruct (S !! Target j) as [wj|] eqn:Hl; destruct (String.eqb _ _); simpl;
      rewrite ?lookup_alter_ne, ?lookup_insert_ne by done; done.
Qed.

Lemma running_jobs_cons t j J :
  running_jobs t (j :: J)
  = ((if decide (Target j = t)
      then if String.eqb (Status j) "running" then 1 else 0
      else 0) + running_jobs t J)%nat.
Proof.
  unfold running_jobs. rewrite filter_cons.
  destruct (decide (Target j = t)) as [Ht|Ht];
    destruct (String.eqb_spec (Status j) "running") as [Hs|Hs];
    [rewrite decide_True by done|rewrite decide_False by (by intros [??])..];
    done.
Qed.

Lemma running_jobs_absent t J : t ∉ job_targets J → running_jobs t J = 0%nat.
Proof.
  unfold job_targets. induction J as [|j J IH]; [done|].
  rewrite fmap_cons, not_elem_of_cons, running_jobs_cons. intros [Hne Hnin].
  rewrite decide_False by done. by rewrite IH.
Qed.

Lemma running_jobs_le t J : (running_jobs t J ≤ length J)%nat.
Proof. apply length_filter. Qed.

Lemma iter_incr_shift n r :
  Nat.iter n (λ r, GoInt.add r 1) (GoInt.add r 1)
  = GoInt.add (Nat.iter n (λ r, GoInt.add r 1) r) 1.
Proof. symmetry. apply (Nat.iter_succ_r n Z (λ r, GoInt.add r 1) r). Qed.

Lemma count_jobs_lookup J : ∀ (S : gmap string workerJob) t,
  count_jobs S J !! t
  = match S !! t with
    | Some wj =>
        Some {| scale := scale wj;
                running := Nat.iter (running_jobs t J)
                                    (λ r, GoInt.add r 1) (running wj) |}
    | None =>
        if decide (t ∈ job_targets J)
        then Some {| scale := 0;
                     running := Nat.iter (running_jobs t J)
                                         (λ r, GoInt.add r 1) 0 |}
        else None
    end.
Proof.
  induction J as [|j J IH]; intros S t.
  - simpl. by destruct (S !! t) as [[]|].
  - unfold count_jobs in *. cbn [foldl]. rewrite IH, count_job_lookup.
    rewrite running_jobs_cons. unfold job_targets. rewrite fmap_cons.
    destruct (decide (Target j = t)) as [Ht|Ht].
    + unfold bump.
      assert (t ∈ Target j :: (Target <$> J)) as Hin
        by (rewrite Ht; apply elem_of_cons; by left).
      destruct (S !! t) as [wj|]; simpl;
        rewrite ?(decide_True _ _ Hin);
        destruct (String.eqb _ _); simpl;
        by rewrite ?iter_incr_shift.
    + simpl. destruct (S !! t) as [wj|]; [done|].
      unfold job_targets.
      destruct (decide (t ∈ Target <$> J)) as [Hin|Hin].
      * rewrite decide_True; [done|]. apply elem_of_cons. by right.
      * rewrite decide_False; [done|].
        intros [?|?]%elem_of_cons; [by apply Ht|by apply Hin].
Qed.

Lemma count_job_insert (S : gmap string workerJob) j :
  count_job S j
  = <[Target j := bump (Status j)
                       (default {| scale := 0; running := 0 |} (S !! Target j))]> S.
Proof.
  apply map_eq. intros t. rewrite count_job_lookup.
  destruct (decide (Target j = t)) as [<-|Hne].
  - by rewrite lookup_insert_eq.
  - by rewrite lookup_insert_ne.
Qed.

Lemma bump_scale status wj : scale (bump status wj) = scale wj.
Proof. unfold bump. by destruct (String.eqb _ _). Qed.

(** ** Sums of scales *)

Lemma sum_scales_perm l1 l2 : l1 ≡ₚ l2 → sum_scales l1 = sum_scales l2.
Proof.
  induction 1 as [|x l1 l2 _ IH|x y l|l1 l2 l3 _ IH1 _ IH2]; simpl.
  - done.
  - by rewrite IH.
  - lia.
  - by rewrite IH1.
Qed.

Lemma scale_sum_insert (S : gmap string workerJob) k v :
  scale_sum (<[k := v]> S)
  = scale v - from_option scale 0 (S !! k) + scale_sum S.
Proof.
  unfold scale_sum. destruct (S !! k) as [w|] eqn:Hk; simpl.
  - rewrite <- (sum_scales_perm _ _ (map_to_list_delete S k w Hk)).
    rewrite <- insert_delete_eq.
    rewrite (sum_scales_perm _ _ (map_to_list_insert (delete k S) k v
                                    (lookup_delete_eq S k))).
    simpl. lia.
  - rewrite (sum_scales_perm _ _ (map_to_list_insert S k v Hk)). simpl. lia.
Qed.

Lemma scale_sum_count_job (S : gmap string workerJob) j :
  scale_sum (count_job S j) = scale_sum S.
Proof.
  rewrite count_job_insert, scale_sum_insert, bump_scale.
  destruct (S !! Target j); simpl; lia.
Qed.

Lemma scale_sum_count_jobs J : ∀ S : gmap string workerJob,
  scale_sum (count_jobs S J) = scale_sum S.
Proof.
  induction J as [|j J IH]; intros S; [done|].
  unfold count_jobs in *. cbn [foldl]. by rewrite IH, scale_sum_count_job.
Qed.

Lemma scale_sum_init (D : gmap string Z) :
  scale_sum ((λ s, {| scale := s; running := 0 |}) <$> D) = declared_sum D.
Proof.
  unfold scale_sum, declared_sum. rewrite map_to_list_fmap.
  induction (map_to_list D) as [|[t s] l IH]; [done|].
  rewrite fmap_cons. simpl. f_equal. apply IH.
Qed.

Lemma scale_sum_empty : scale_sum ∅ = 0.
Proof. unfold scale_sum. by rewrite map_to_list_empty. Qed.

(** The pass over the summary: one row per entry, in the order of the
    entries, and the wrapped sum of their scales. *)
Lemma tabulate_from (l : list (string * workerJob)) :
  ∀ (data : list (list string)) (total : Z),
    GoInt.in_range total →
    foldl (λ '(data, total) entry,
             ((data ++ [row entry])%list, GoInt.add total (scale entry.2)))
          (data, total) l
    = ((data ++ (row <$> l))%list, GoInt.wrap (total + sum_scales l)).
Proof.
  induction l as [|e l IH]; intros data total Hr; simpl.
  - by rewrite app_nil_r, Z.add_0_r, GoIntFacts.wrap_id.
  - rewrite IH by apply GoIntFacts.wrap_in_range.
    unfold GoInt.add. rewrite GoIntFacts.wrap_add_l, <- app_assoc.
    do 2 f_equal. lia.
Qed.

Lemma tabulate_spec (l : list (string * workerJob)) :
  tabulate l = (header :: (row <$> l), GoInt.wrap (sum_scales l)).
Proof.
  unfold tabulate. by rewrite tabulate_from by apply GoIntFacts.zero_in_range.
Qed.

Section reconciled.
Context (range : RangeOrder) (range_ok : valid_range range).

(** What the reconciliation holds for a target. *)
Lemma reconcile_lookup (D : gmap string Z) J t :
  reconcile range D J !! t
  = match D !! t with
    | Some s =>
        Some {| scale := s;
                running := GoInt.wrap (Z.of_nat (running_jobs t J)) |}
    | None =>
        if decide (t ∈ job_targets J)
        then Some {| scale := 0;
                     running := GoInt.wrap (Z.of_nat (running_jobs t J)) |}
        else None
    end.
Proof.
  unfold reconcile. rewrite count_jobs_lookup, init_summary_lookup by done.
  destruct (D !! t) as [s|]; simpl;
    rewrite ?GoIntFacts.iter_incr by apply GoIntFacts.zero_in_range;
    by rewrite ?Z.add_0_l.
Qed.

Lemma reconcile_scale_sum (D : gmap string Z) J :
  scale_sum (reconcile range D J) = declared_sum D.
Proof.
  unfold reconcile.
  by rewrite scale_sum_count_jobs, init_summary_fmap, scale_sum_init.
Qed.

Lemma range_sum_scales (S : gmap string workerJob) :
  sum_scales (range workerJob S) = scale_sum S.
Proof. apply sum_scales_perm, range_ok. Qed.

Context `{iw : IWorker} `{isv : IServices} `{ij : IJobs}.

(** The run of [CmdList] past the guard. *)
Lemma CmdList_listed svcName service D J :
  fetched svcName service D J → D ≠ ∅ →
  CmdList range svcName
  = {| out := [Render (header :: (row <$> range workerJob (reconcile range D J)));
               Printf (usage_line (sprintf_d (GoInt.wrap (declared_sum D)))
                                  (WorkerScale service) svcName)];
       ending := Return None |}.
Proof.
  intros (Hs & Hw & Hj) HD. unfold CmdList. rewrite Hs, Hw, Hj. simpl.
  rewrite bool_decide_eq_false_2 by by rewrite init_summary_empty.
  fold (reconcile range D J).
  by rewrite tabulate_spec, range_sum_scales, reconcile_scale_sum.
Qed.

(** The run of [CmdList] stopped by the guard. *)
Lemma CmdList_guard svcName service jobs :
  RetrieveByLabel svcName = (Some service, None) →
  Retrieve (ID service) = (Some {| Workers := ∅ |}, None) →
  RetrieveByType (ID service) "worker" 1 1000 = (jobs, None) →
  CmdList range svcName
  = {| out := [Printf (no_workers_line svcName);
               Printf (usage_line "0" (WorkerScale service) svcName)];
       ending := Return None |}.
Proof.
  intros Hs Hw Hj. unfold CmdList. rewrite Hs, Hw, Hj. simpl.
  by rewrite bool_decide_eq_true_2 by by rewrite init_summary_empty.
Qed.

End reconciled.

(** ** Enumerations of a map *)

Lemma range_forward_valid : valid_range range_forward.
Proof. intros V m. reflexivity. Qed.

Lemma range_backward_valid : valid_range range_backward.
Proof. intros V m. apply reverse_Permutation. Qed.

(** The summary does not depend on the order of the first loop. *)
Lemma reconcile_order_irrelevant (r1 r2 : RangeOrder) D J :
  valid_range r1 → valid_range r2 → reconcile r1 D J = reconcile r2 D J.
Proof.
  intros H1 H2. apply map_eq. intros t. by rewrite !reconcile_lookup.
Qed.

Lemma reconcile_key (range : RangeOrder) D J t :
  valid_range range →
  is_Some (reconcile range D J !! t) ↔ is_Some (D !! t) ∨ t ∈ job_targets J.
Proof.
  intros Hr. rewrite reconcile_lookup by done.
  destruct (D !! t) as [s|]; [|case_decide].
  - split; [left|]; eauto.
  - split; [right|]; eauto.
  - split; [by intros []|]. intros [[]|]; done.
Qed.

(** ** The worker list *)

Section worker_list.
Context (range : RangeOrder) (range_ok : valid_range range).
Context `{iw : IWorker} `{isv : IServices} `{ij : IJobs}.
Context (svcName : string) (service : models_Service).
Context (D : gmap string Z) (J : list models_Job).

(** C1: the keys of the summary the reconciliation builds from the
    declarations [D] and the job records [J] are the targets of [D] together
    with the targets of the jobs of [J], no other key, and each key once;
    past the guard on empty declarations [CmdList] renders one row for each
    of these keys. *)
Theorem summary_keys_exactly_once :
  let summary := reconcile range D J in
  (∀ t, is_Some (summary !! t) ↔ is_Some (D !! t) ∨ t ∈ job_targets J) ∧
  (∀ t, is_Some (summary !! t) ↔ t ∈ (range workerJob summary).*1) ∧
  NoDup (range workerJob summary).*1 ∧
  (fetched svcName service D J → D ≠ ∅ →
   renders (CmdList range svcName) (range workerJob summary)).
Proof.
  intros summary. split_and!.
  - intros t. by apply reconcile_key.
  - intros t. rewrite list_elem_of_fmap. split.
    + intros [wj Hwj]. exists (t, wj). split; [done|].
      by apply range_elem_of.
    + intros ([t' wj] & -> & Hin). exists wj. by apply (range_elem_of range).
  - by apply range_NoDup_keys.
  - intros Hf HD. eexists. by rewrite (CmdList_listed range range_ok _ service D J).
Qed.

(** C2: in the summary a target that only the job records name has scale 0,
    and a target that only the declarations name has its declared scale and
    runningCount 0; past the guard [CmdList] renders this summary. *)
Theorem one_sided_targets :
  let summary := reconcile range D J in
  (∀ t, D !! t = None → t ∈ job_targets J →
        ∃ n, summary !! t = Some {| scale := 0; running := n |}) ∧
  (∀ t s, D !! t = Some s → t ∉ job_targets J →
          summary !! t = Some {| scale := s; running := 0 |}) ∧
  (fetched svcName service D J → D ≠ ∅ →
   renders (CmdList range svcName) (range workerJob summary)).
Proof.
  intros summary. split_and!.
  - intros t HD Hin. unfold summary. rewrite reconcile_lookup, HD by done.
    rewrite decide_True by done. eauto.
  - intros t s HD Hnin. unfold summary. rewrite reconcile_lookup, HD by done.
    by rewrite running_jobs_absent.
  - intros Hf HD. eexists. by rewrite (CmdList_listed range range_ok _ service D J).
Qed.

(** C4: the runningCount of a target of the summary is the number of job
    records of [J] with that target and status "running" (as a Go [int];
    the number itself for any slice Go can hold); a job record with another
    status changes no entry the summary already has, and its target is a
    key of the summary all the same. *)
Theorem running_count_counts_running_jobs :
  let summary := reconcile range D J in
  (∀ t wj, summary !! t = Some wj →
     running wj = GoInt.wrap (Z.of_nat (running_jobs t J)) ∧
     (Z.of_nat (length J) ≤ GoInt.max_int →
      running wj = Z.of_nat (running_jobs t J))) ∧
  (∀ (S : gmap string workerJob) j, Status j ≠ "running" →
     is_Some (count_job S j !! Target j) ∧
     ∀ t wj, S !! t = Some wj → count_job S j !! t = Some wj) ∧
  (∀ j, j ∈ J → is_Some (summary !! Target j)) ∧
  (fetched svcName service D J → D ≠ ∅ →
   renders (CmdList range svcName) (range workerJob summary)).
Proof.
  intros summary. split_and!.
  - intros t wj Hwj.
    assert (running wj = GoInt.wrap (Z.of_nat (running_jobs t J))) as Hrun.
    { unfold summary in Hwj. rewrite reconcile_lookup in Hwj by done.
      destruct (D !! t); [|case_decide]; by simplify_eq. }
    split; [done|]. intros Hlen. rewrite Hrun. apply GoIntFacts.wrap_id.
    pose proof (running_jobs_le t J). unfold GoInt.in_range, GoInt.min_int. lia.
  - intros S j Hst. rewrite count_job_lookup, decide_True by done.
    split; [done|]. intros t wj Hwj. rewrite count_job_lookup.
    case_decide as Ht; [|done]. subst t. rewrite Hwj. simpl. unfold bump.
    by rewrite (proj2 (String.eqb_neq _ _) Hst).
  - intros j Hj. apply reconcile_key; [done|]. right.
    unfold job_targets. apply list_elem_of_fmap. eauto.
  - intros Hf HD. eexists. by rewrite (CmdList_listed range range_ok _ service D J).
Qed.

End worker_list.

(** C3: the total [CmdList] reports is the sum of the scales of the entries
    of the summary, added up as Go [int]s (hence the sum itself whenever it
    fits an [int]), and it is fixed by the declarations: whatever the job
    records, it is the sum of the declared scales, which is also the sum
    over the summary as the first loop leaves it. *)
Theorem total_is_scale_sum (range : RangeOrder) `{iw : IWorker}
    `{isv : IServices} (svcName : string) (service : models_Service)
    (D : gmap string Z) :
  valid_range range →
  ∃ total : Z,
    total = GoInt.wrap (declared_sum D) ∧
    total = GoInt.wrap (scale_sum (init_summary range D)) ∧
    ∀ (ij : IJobs) (J : list models_Job),
      fetched svcName service D J →
      last (out (CmdList range svcName))
      = Some (Printf (usage_line (sprintf_d total) (WorkerScale service) svcName)) ∧
      total = GoInt.wrap (scale_sum (reconcile range D J)) ∧
      (GoInt.in_range (scale_sum (reconcile range D J)) →
       total = scale_sum (reconcile range D J)).
Proof.
  intros Hr. eexists. split; [done|].
  split; [by rewrite init_summary_fmap, scale_sum_init|]. intros ij J Hf.
  rewrite reconcile_scale_sum by done. split_and!; [|done|].
  - destruct (decide (D = ∅)) as [->|HD].
    + destruct Hf as (Hs & Hw & Hj).
      by rewrite (CmdList_guard range Hr svcName service (Some J)).
    + by rewrite (CmdList_listed range Hr svcName service D J).
  - intros Hin. by apply GoIntFacts.wrap_id.
Qed.

(** C5, as stated, fails: the fetch of the job records comes before the
    guard, so with empty declarations and a failing fetch of the jobs
    [CmdList] returns the error of that fetch and prints nothing. *)
Lemma empty_declarations_with_failing_jobs :
  @Retrieve (Sample.workers ∅) (ID Sample.service)
  = (Some {| Workers := ∅ |}, None) ∧
  @CmdList range_forward "code" (Sample.workers ∅) Sample.services
           (Sample.jobs_failing "503 Service Unavailable")
  = {| out := []; ending := Return (Some "503 Service Unavailable") |} ∧
  ending (@CmdList range_forward "code" (Sample.workers ∅) Sample.services
                   (Sample.jobs_failing "503 Service Unavailable"))
  ≠ Return None ∧
  Printf (no_workers_line "code")
  ∉ out (@CmdList range_forward "code" (Sample.workers ∅) Sample.services
                  (Sample.jobs_failing "503 Service Unavailable")).
Proof.
  assert (@CmdList range_forward "code" (Sample.workers ∅) Sample.services
                   (Sample.jobs_failing "503 Service Unavailable")
          = {| out := []; ending := Return (Some "503 Service Unavailable") |})
    as Hrun by (vm_compute; reflexivity).
  rewrite Hrun. split_and!; [reflexivity|reflexivity|discriminate|].
  simpl. apply not_elem_of_nil.
Qed.

(** C5, amended: on an empty declarations mapping, when the fetch of the job
    records returned no error, [CmdList] prints that no running workers were
    found and that 0 of the service's worker scale are in use, returns
    without error, shows no table, and does so whatever the job records
    are. *)
Theorem no_workers_short_circuit (range : RangeOrder) `{iw : IWorker}
    `{isv : IServices} `{ij : IJobs} (svcName : string)
    (service : models_Service) (jobs : option (list models_Job)) :
  valid_range range →
  RetrieveByLabel svcName = (Some service, None) →
  Retrieve (ID service) = (Some {| Workers := ∅ |}, None) →
  RetrieveByType (ID service) "worker" 1 1000 = (jobs, None) →
  CmdList range svcName
  = {| out := [Printf ("No running workers found for " +:+ svcName);
               Printf (newline +:+ "You are using 0 out of your available "
                       +:+ sprintf_d (WorkerScale service)
                       +:+ " workers for " +:+ svcName)];
       ending := Return None |} ∧
  ∀ data, Render data ∉ out (CmdList range svcName).
Proof.
  intros Hr Hs Hw Hj.
  rewrite (CmdList_guard range Hr svcName service jobs) by done.
  split; [done|]. intros data Hin. simpl in Hin.
  apply elem_of_cons in Hin as [?|Hin]; [done|].
  apply elem_of_cons in Hin as [?|Hin]; [done|]. by apply elem_of_nil in Hin.
Qed.

(** C8: when the service is found and the fetch of the declarations gives no
    error, an error of the fetch of the job records is what [CmdList]
    returns, whatever the declarations are (empty ones too), and nothing is
    printed. *)
Theorem jobs_error_is_returned (range : RangeOrder) `{iw : IWorker}
    `{isv : IServices} `{ij : IJobs} (svcName : string)
    (service : models_Service) (workers : option models_Workers)
    (jobs : option (list models_Job)) (e : error) :
  RetrieveByLabel svcName = (Some service, None) →
  Retrieve (ID service) = (workers, None) →
  RetrieveByType (ID service) "worker" 1 1000 = (jobs, Some e) →
  CmdList range svcName = {| out := []; ending := Return (Some e) |}.
Proof. intros Hs Hw Hj. unfold CmdList. by rewrite Hs, Hw, Hj. Qed.

(** ** The guard on empty declarations against the single code path *)

(** C6, as stated, fails: with no declaration and one running job of target
    worker-x the reconciler's summary is not empty, and the single code path
    renders it, where [CmdList] prints that no running workers were found. *)
Lemma guard_not_equivalent_to_reconciler :
  let iw := Sample.workers ∅ in
  let isv := Sample.services in
  let ij := Sample.jobs Sample.J3 in
  reconcile range_forward ∅ Sample.J3
  = {[ "worker-x" := {| scale := 0; running := 1 |} ]} ∧
  out (CmdList range_forward "code")
  = [Printf "No running workers found for code";
     Printf (newline +:+ "You are using 0 out of your available 5 workers for code")] ∧
  out (CmdList_unified range_forward "code")
  = [Render [header; ["worker-x"; "0"; "1"]];
     Printf (newline +:+ "You are using 0 out of your available 5 workers for code")] ∧
  CmdList range_forward "code" ≠ CmdList_unified range_forward "code".
Proof.
  intros iw isv ij. split_and!; [by vm_compute..|].
  intros Heq. apply (f_equal out) in Heq. vm_compute in Heq. discriminate Heq.
Qed.

(** C6, amended: on an empty declarations mapping the guarded [CmdList] and
    the single code path both return without error and end on the same
    usage line, 0 of the service's worker scale; the reconciler's summary
    then has exactly the targets of the job records as keys, each with
    scale 0, so it is empty only when there is no job record; and the two
    paths never print the same, the single path rendering a table where the
    guard prints its message. *)
Theorem guard_agrees_on_usage_only (range : RangeOrder) `{iw : IWorker}
    `{isv : IServices} `{ij : IJobs} (svcName : string)
    (service : models_Service) (J : list models_Job) :
  valid_range range →
  fetched svcName service ∅ J →
  let summary := reconcile range ∅ J in
  (∀ t, is_Some (summary !! t) ↔ t ∈ job_targets J) ∧
  (∀ t wj, summary !! t = Some wj → scale wj = 0) ∧
  (summary = ∅ ↔ J = []) ∧
  ending (CmdList range svcName) = Return None ∧
  ending (CmdList_unified range svcName) = Return None ∧
  last (out (CmdList range svcName))
  = Some (Printf (usage_line "0" (WorkerScale service) svcName)) ∧
  last (out (CmdList_unified range svcName))
  = Some (Printf (usage_line "0" (WorkerScale service) svcName)) ∧
  out (CmdList range svcName) ≠ out (CmdList_unified range svcName).
Proof.
  intros Hr Hf summary.
  assert (∀ t, is_Some (summary !! t) ↔ t ∈ job_targets J) as Hkeys.
  { intros t. unfold summary. rewrite reconcile_key, lookup_empty by done.
    split; [intros [Hn|?]; [by apply is_Some_None in Hn|done]|by right]. }
  assert (CmdList_unified range svcName
          = {| out := [Render (header :: (row <$> range workerJob summary));
                       Printf (usage_line "0" (WorkerScale service) svcName)];
               ending := Return None |}) as Hu.
  { destruct Hf as (Hs & Hw & Hj). unfold CmdList_unified.
    rewrite Hs, Hw, Hj. simpl. fold summary.
    rewrite tabulate_spec, range_sum_scales by done. unfold summary.
    by rewrite reconcile_scale_sum. }
  assert (CmdList range svcName
          = {| out := [Printf (no_workers_line svcName);
                       Printf (usage_line "0" (WorkerScale service) svcName)];
               ending := Return None |}) as Hg.
  { destruct Hf as (Hs & Hw & Hj).
    by apply (CmdList_guard range Hr svcName service (Some J)). }
  rewrite Hu, Hg. split_and!; try done.
  - intros t wj. unfold summary. rewrite reconcile_lookup, lookup_empty by done.
    case_decide; [|done]. by intros [= <-].
  - split.
    + intros Hempty. destruct J as [|j J']; [done|].
      destruct (proj2 (Hkeys (Target j))) as [wj Hwj].
      * unfold job_targets. rewrite fmap_cons. apply elem_of_cons. by left.
      * by rewrite Hempty, lookup_empty in Hwj.
    + intros ->. unfold summary, reconcile. simpl.
      by rewrite init_summary_fmap, fmap_empty.
Qed.

(** ** The order of the rows *)

(** C7, as stated, fails: [CmdList] ranges over a Go map to fill the table,
    and two enumerations of the same summary give the rows of scenario 1 in
    two orders. *)
Lemma row_order_not_fixed :
  let iw := Sample.workers Sample.D1 in
  let isv := Sample.services in
  let ij := Sample.jobs Sample.J1 in
  valid_range range_forward ∧ valid_range range_backward ∧
  out (CmdList range_forward "code")
  = [Render [header; ["worker-a"; "2"; "2"]; ["worker-b"; "1"; "0"]];
     Printf (newline +:+ "You are using 3 out of your available 5 workers for code")] ∧
  out (CmdList range_backward "code")
  = [Render [header; ["worker-b"; "1"; "0"]; ["worker-a"; "2"; "2"]];
     Printf (newline +:+ "You are using 3 out of your available 5 workers for code")] ∧
  out (CmdList range_forward "code") ≠ out (CmdList range_backward "code").
Proof.
  intros iw isv ij.
  split_and!; [apply range_forward_valid|apply range_backward_valid|
               by vm_compute..|].
  vm_compute. intros Heq. discriminate Heq.
Qed.

(** C7, amended: two runs of [CmdList] on the same declarations and job
    records end the same way and print the same usage line; on empty
    declarations they print the same, and otherwise each renders the header
    followed by one row per key of the same summary, the rows of one run
    being a permutation of the rows of the other. *)
Theorem rows_fixed_up_to_order (r1 r2 : RangeOrder) `{iw : IWorker}
    `{isv : IServices} `{ij : IJobs} (svcName : string)
    (service : models_Service) (D : gmap string Z) (J : list models_Job) :
  valid_range r1 → valid_range r2 →
  fetched svcName service D J →
  ending (CmdList r1 svcName) = ending (CmdList r2 svcName) ∧
  last (out (CmdList r1 svcName)) = last (out (CmdList r2 svcName)) ∧
  (D = ∅ → CmdList r1 svcName = CmdList r2 svcName) ∧
  (D ≠ ∅ →
   ∃ rows1 rows2 line,
     out (CmdList r1 svcName) = [Render (header :: rows1); Printf line] ∧
     out (CmdList r2 svcName) = [Render (header :: rows2); Printf line] ∧
     rows1 ≡ₚ rows2 ∧
     rows1 ≡ₚ row <$> map_to_list (reconcile r1 D J)).
Proof.
  intros H1 H2 Hf. destruct (decide (D = ∅)) as [->|HD].
  - destruct Hf as (Hs & Hw & Hj).
    rewrite (CmdList_guard r1 H1 svcName service (Some J)) by done.
    rewrite (CmdList_guard r2 H2 svcName service (Some J)) by done.
    by split_and!.
  - rewrite (CmdList_listed r1 H1 svcName service D J) by done.
    rewrite (CmdList_listed r2 H2 svcName service D J) by done.
    split_and!; try done. intros _. do 3 eexists. split_and!; try done.
    + rewrite (reconcile_order_irrelevant r2 r1) by done.
      apply fmap_Permutation. by rewrite (H1 _ _), (H2 _ _).
    + apply fmap_Permutation, H1.
Qed.

(** ** Disassociation *)

(** C9: for every alias, with or without a breadcrumb in the settings,
    [Disassociate] returns no error and prints the warning that the git
    remote has not been removed; afterwards the alias has no breadcrumb,
    settings without one for the alias are left as they were, and a second
    call changes nothing more. *)
Theorem disassociate_always_succeeds (alias : string)
    (settings : models_Settings) :
  let settings' := (CmdDisassociate alias settings).1 in
  let run := (CmdDisassociate alias settings).2 in
  ending run = Return None ∧
  out run
  = [Printf ("WARNING: Your existing git remote *has not* been removed."
             +:+ newline +:+ newline);
     Printf ("Association cleared." +:+ newline)] ∧
  Environments settings' !! alias = None ∧
  (∀ other, other ≠ alias →
     Environments settings' !! other = Environments settings !! other) ∧
  (Environments settings !! alias = None → settings' = settings) ∧
  CmdDisassociate alias settings' = (settings', run).
Proof.
  simpl. split_and!; try done.
  - apply lookup_delete_eq.
  - intros other Hne. by apply lookup_delete_ne.
  - intros Hmissing. destruct settings as [envs name]. simpl in *.
    unfold DeleteBreadcrumb. simpl. f_equal. by apply delete_id.
  - unfold CmdDisassociate. simpl. unfold Disassociate, DeleteBreadcrumb. simpl.
    by rewrite delete_delete_eq.
Qed.

(** ** Sending an invite *)

(** C10: the role [invites send] passes to the send operation is "admin"
    when the option [-a] is set and "member" when it is not, whatever the
    option [-m] is; no other role is ever passed, and the send operation is
    called with it whenever sign-in and the association check succeed. *)
Theorem send_role_is_member_or_admin (signin association : option error)
    (email : string) (member adminRole : bool) (settings : models_Settings)
    (CmdSend : string → string → string → option error) :
  let run := SendSubCmd_Action signin association email member adminRole
                               settings CmdSend in
  (∀ email' role envName,
     CallSend email' role envName ∈ out run →
     (role = "member" ∨ role = "admin") ∧
     (role = "admin" ↔ adminRole = true) ∧
     (role = "member" ↔ adminRole = false)) ∧
  (signin = None → association = None →
   out run = [CallSend email (if adminRole then "admin" else "member")
                       (EnvironmentName settings)]).
Proof.
  intros run. split.
  - intros email' role envName Hin.
    assert (role = send_role adminRole) as ->.
    { unfold run, SendSubCmd_Action in Hin.
      destruct signin, association; simpl in Hin;
        try by apply elem_of_nil in Hin.
      destruct (CmdSend _ _ _); simpl in Hin;
        apply list_elem_of_singleton in Hin; by simplify_eq. }
    destruct adminRole; simpl; split_and!; try done; eauto.
  - intros -> ->. unfold run, SendSubCmd_Action.
    destruct (CmdSend _ _ _); by destruct adminRole.
Qed.

(** ** The scenarios of the specification *)

Example scenario_1 :
  @CmdList range_forward "code" (Sample.workers Sample.D1) Sample.services
           (Sample.jobs Sample.J1)
  = {| out := [Render [header; ["worker-a"; "2"; "2"]; ["worker-b"; "1"; "0"]];
               Printf (newline
                       +:+ "You are using 3 out of your available 5 workers for code")];
       ending := Return None |}.
Proof. vm_compute. reflexivity. Qed.

Example scenario_3 :
  @CmdList range_forward "code" (Sample.workers Sample.D3) Sample.services
           (Sample.jobs Sample.J3)
  = {| out := [Render [header; ["worker-a"; "1"; "0"]; ["worker-x"; "0"; "1"]];
               Printf (newline
                       +:+ "You are using 1 out of your available 5 workers for code")];
       ending := Return None |}.
Proof. vm_compute. reflexivity. Qed.

Example service_not_found :
  @CmdList range_forward "code" (Sample.workers Sample.D1)
           {| RetrieveByLabel := λ _, (None, None) |} (Sample.jobs Sample.J1)
  = {| out := []; ending := Return (Some (not_found "code")) |}.
Proof. vm_compute. reflexivity. Qed.

Example int_wraps : GoInt.add GoInt.max_int 1 = GoInt.min_int.
Proof. vm_compute. reflexivity. Qed.

(** ** The theorems at the sample inputs *)

Lemma sample_fetched (D : gmap string Z) (J : list models_Job) :
  @fetched (Sample.workers D) Sample.services (Sample.jobs J)
           "code" Sample.service D J.
Proof. by repeat split. Qed.

Lemma D1_not_empty : Sample.D1 ≠ ∅.
Proof.
  intros Heq. apply (f_equal (λ m : gmap string Z, m !! "worker-a")) in Heq.
  vm_compute in Heq. discriminate Heq.
Qed.

Lemma D3_not_empty : Sample.D3 ≠ ∅.
Proof.
  intros Heq. apply (f_equal (λ m : gmap string Z, m !! "worker-a")) in Heq.
  vm_compute in Heq. discriminate Heq.
Qed.

(** Scenario 3: worker-a is declared, worker-x only has a job; both are keys
    of the summary and both are rendered. *)
Lemma summary_keys_exactly_once_witness :
  valid_range range_forward ∧
  @fetched (Sample.workers Sample.D3) Sample.services (Sample.jobs Sample.J3)
           "code" Sample.service Sample.D3 Sample.J3 ∧
  Sample.D3 ≠ ∅ ∧
  is_Some (reconcile range_forward Sample.D3 Sample.J3 !! "worker-a") ∧
  is_Some (reconcile range_forward Sample.D3 Sample.J3 !! "worker-x") ∧
  NoDup (range_forward workerJob
           (reconcile range_forward Sample.D3 Sample.J3)).*1 ∧
  renders (@CmdList range_forward "code" (Sample.workers Sample.D3)
                    Sample.services (Sample.jobs Sample.J3))
          (range_forward workerJob (reconcile range_forward Sample.D3 Sample.J3)).
Proof.
  destruct (@summary_keys_exactly_once range_forward range_forward_valid
              (Sample.workers Sample.D3) Sample.services (Sample.jobs Sample.J3)
              "code" Sample.service Sample.D3 Sample.J3)
    as (Hkeys & _ & Hnodup & Hrenders).
  split_and!.
  - apply range_forward_valid.
  - apply sample_fetched.
  - apply D3_not_empty.
  - apply Hkeys. left. exists 1. by vm_compute.
  - apply Hkeys. right. apply elem_of_cons. by left.
  - apply Hnodup.
  - apply Hrenders; [apply sample_fetched|apply D3_not_empty].
Defined.

(** Scenario 3: worker-x has scale 0 and worker-a runningCount 0. *)
Lemma one_sided_targets_witness :
  valid_range range_forward ∧
  Sample.D3 !! "worker-x" = None ∧
  "worker-x" ∈ job_targets Sample.J3 ∧
  Sample.D3 !! "worker-a" = Some 1 ∧
  ("worker-a" ∉ job_targets Sample.J3) ∧
  (∃ n, reconcile range_forward Sample.D3 Sample.J3 !! "worker-x"
        = Some {| scale := 0; running := n |}) ∧
  reconcile range_forward Sample.D3 Sample.J3 !! "worker-a"
  = Some {| scale := 1; running := 0 |}.
Proof.
  destruct (@one_sided_targets range_forward range_forward_valid
              (Sample.workers Sample.D3) Sample.services (Sample.jobs Sample.J3)
              "code" Sample.service Sample.D3 Sample.J3)
    as (Hjobs & Hdecl & _).
  assert (Sample.D3 !! "worker-x" = None) as Hx by by vm_compute.
  assert ("worker-x" ∈ job_targets Sample.J3) as Hxin
    by (apply elem_of_cons; by left).
  assert (Sample.D3 !! "worker-a" = Some 1) as Ha by by vm_compute.
  assert ("worker-a" ∉ job_targets Sample.J3) as Hanin.
  { intros Hin. apply elem_of_cons in Hin as [Heq|Hin]; [discriminate Heq|].
    by apply elem_of_nil in Hin. }
  split_and!;
    [apply range_forward_valid|done..|by apply Hjobs|by apply Hdecl].
Defined.

(** Scenario 1: two running jobs of worker-a, and the pending job of
    worker-b counts for nothing. *)
Lemma running_count_counts_running_jobs_witness :
  valid_range range_forward ∧
  reconcile range_forward Sample.D1 Sample.J1 !! "worker-a"
  = Some {| scale := 2; running := 2 |} ∧
  (Z.of_nat (length Sample.J1) ≤ GoInt.max_int) ∧
  2 = Z.of_nat (running_jobs "worker-a" Sample.J1) ∧
  Status (Sample.job "worker-b" "pending") ≠ "running" ∧
  is_Some (count_job ∅ (Sample.job "worker-b" "pending") !! "worker-b").
Proof.
  destruct (@running_count_counts_running_jobs range_forward range_forward_valid
              (Sample.workers Sample.D1) Sample.services (Sample.jobs Sample.J1)
              "code" Sample.service Sample.D1 Sample.J1)
    as (Hcount & Hother & _ & _).
  assert (reconcile range_forward Sample.D1 Sample.J1 !! "worker-a"
          = Some {| scale := 2; running := 2 |}) as Ha by by vm_compute.
  assert (Z.of_nat (length Sample.J1) ≤ GoInt.max_int) as Hlen
    by (by vm_compute).
  assert (Status (Sample.job "worker-b" "pending") ≠ "running") as Hst
    by (intros Heq; discriminate Heq).
  split_and!;
    [apply range_forward_valid|done|done
    |by apply (proj2 (Hcount "worker-a" _ Ha))|done
    |by apply (Hother ∅ _ Hst)].
Defined.

(** Scenario 1: the total is 3 with the three jobs and without any job. *)
Lemma total_is_scale_sum_witness :
  valid_range range_forward ∧
  GoInt.in_range (scale_sum (reconcile range_forward Sample.D1 Sample.J1)) ∧
  last (out (@CmdList range_forward "code" (Sample.workers Sample.D1)
                      Sample.services (Sample.jobs Sample.J1)))
  = Some (Printf (usage_line (sprintf_d 3) (WorkerScale Sample.service) "code")) ∧
  last (out (@CmdList range_forward "code" (Sample.workers Sample.D1)
                      Sample.services (Sample.jobs [])))
  = Some (Printf (usage_line (sprintf_d 3) (WorkerScale Sample.service) "code")) ∧
  3 = scale_sum (reconcile range_forward Sample.D1 Sample.J1).
Proof.
  destruct (@total_is_scale_sum range_forward (Sample.workers Sample.D1)
              Sample.services "code" Sample.service Sample.D1
              range_forward_valid) as (total & Htotal & _ & Hjobs).
  assert (total = 3) as Hthree by (rewrite Htotal; vm_compute; reflexivity).
  rewrite Hthree in Hjobs.
  destruct (Hjobs (Sample.jobs Sample.J1) Sample.J1 (sample_fetched _ _))
    as (Hline1 & _ & Hsum).
  destruct (Hjobs (Sample.jobs []) [] (sample_fetched _ _)) as (Hline0 & _ & _).
  assert (GoInt.in_range (scale_sum (reconcile range_forward Sample.D1 Sample.J1)))
    as Hin by (vm_compute; split; discriminate).
  split_and!;
    [exact range_forward_valid|exact Hin|exact Hline1|exact Hline0
    |exact (Hsum Hin)].
Defined.

(** No declaration and a running job of worker-x: the job is not shown. *)
Lemma no_workers_short_circuit_witness :
  valid_range range_forward ∧
  @CmdList range_forward "code" (Sample.workers ∅) Sample.services
           (Sample.jobs Sample.J3)
  = {| out := [Printf "No running workers found for code";
               Printf (newline +:+ "You are using 0 out of your available 5 workers for code")];
       ending := Return None |}.
Proof.
  split; [apply range_forward_valid|].
  apply (@no_workers_short_circuit range_forward (Sample.workers ∅)
           Sample.services (Sample.jobs Sample.J3) "code" Sample.service
           (Some Sample.J3) range_forward_valid); reflexivity.
Defined.

(** No declaration and a failing fetch of the jobs: the error comes back. *)
Lemma jobs_error_is_returned_witness :
  @CmdList range_forward "code" (Sample.workers ∅) Sample.services
           (Sample.jobs_failing "503 Service Unavailable")
  = {| out := []; ending := Return (Some "503 Service Unavailable") |}.
Proof.
  apply (@jobs_error_is_returned range_forward (Sample.workers ∅)
           Sample.services (Sample.jobs_failing "503 Service Unavailable")
           "code" Sample.service (Some {| Workers := ∅ |}) None
           "503 Service Unavailable"); reflexivity.
Defined.

(** No declaration and a running job of worker-x: both paths end on the same
    usage line, and only the single path shows the job. *)
Lemma guard_agrees_on_usage_only_witness :
  valid_range range_forward ∧
  @fetched (Sample.workers ∅) Sample.services (Sample.jobs Sample.J3)
           "code" Sample.service ∅ Sample.J3 ∧
  last (out (@CmdList range_forward "code" (Sample.workers ∅) Sample.services
                      (Sample.jobs Sample.J3)))
  = last (out (@CmdList_unified range_forward "code" (Sample.workers ∅)
                                Sample.services (Sample.jobs Sample.J3))) ∧
  out (@CmdList range_forward "code" (Sample.workers ∅) Sample.services
                (Sample.jobs Sample.J3))
  ≠ out (@CmdList_unified range_forward "code" (Sample.workers ∅)
                          Sample.services (Sample.jobs Sample.J3)).
Proof.
  destruct (@guard_agrees_on_usage_only range_forward (Sample.workers ∅)
              Sample.services (Sample.jobs Sample.J3) "code" Sample.service
              Sample.J3 range_forward_valid (sample_fetched _ _))
    as (_ & _ & _ & _ & _ & Hguard & Hunified & Hdiffer).
  split_and!;
    [apply range_forward_valid|apply sample_fetched
    |by rewrite Hguard, Hunified|apply Hdiffer].
Defined.

(** Scenario 1 under the two enumerations: the same rows in two orders. *)
Lemma rows_fixed_up_to_order_witness :
  valid_range range_forward ∧ valid_range range_backward ∧
  @fetched (Sample.workers Sample.D1) Sample.services (Sample.jobs Sample.J1)
           "code" Sample.service Sample.D1 Sample.J1 ∧
  Sample.D1 ≠ ∅ ∧
  ∃ rows1 rows2 line,
    out (@CmdList range_forward "code" (Sample.workers Sample.D1)
                  Sample.services (Sample.jobs Sample.J1))
    = [Render (header :: rows1); Printf line] ∧
    out (@CmdList range_backward "code" (Sample.workers Sample.D1)
                  Sample.services (Sample.jobs Sample.J1))
    = [Render (header :: rows2); Printf line] ∧
    rows1 ≡ₚ rows2.
Proof.
  destruct (@rows_fixed_up_to_order range_forward range_backward
              (Sample.workers Sample.D1) Sample.services
              (Sample.jobs Sample.J1) "code" Sample.service Sample.D1
              Sample.J1 range_forward_valid range_backward_valid
              (sample_fetched _ _))
    as (_ & _ & _ & Hrows).
  destruct (Hrows D1_not_empty) as (rows1 & rows2 & line & H1 & H2 & Hperm & _).
  split_and!;
    [exact range_forward_valid|exact range_backward_valid|apply sample_fetched
    |exact D1_not_empty|].
  exists rows1, rows2, line. split_and!; [exact H1|exact H2|exact Hperm].
Defined.

(** Scenario 5: an alias without a breadcrumb leaves the settings as they
    were, and the warning is printed. *)
Lemma disassociate_always_succeeds_witness :
  Environments Sample.settings !! "staging" = None ∧
  (CmdDisassociate "staging" Sample.settings).1 = Sample.settings ∧
  ending (CmdDisassociate "staging" Sample.settings).2 = Return None ∧
  out (CmdDisassociate "staging" Sample.settings).2
  = [Printf ("WARNING: Your existing git remote *has not* been removed."
             +:+ newline +:+ newline);
     Printf ("Association cleared." +:+ newline)].
Proof.
  assert (Environments Sample.settings !! "staging" = None) as Hmissing
    by (vm_compute; reflexivity).
  destruct (disassociate_always_succeeds "staging" Sample.settings)
    as (Hend & Hout & _ & _ & Hsame & _).
  split_and!; [exact Hmissing|exact (Hsame Hmissing)|exact Hend|exact Hout].
Defined.

(** The sample command of the help text: [-a] sends the role admin. *)
Lemma send_role_is_member_or_admin_witness :
  out (SendSubCmd_Action None None "coworker@catalyze.io" true true
                         Sample.settings (λ _ _ _, None))
  = [CallSend "coworker@catalyze.io" "admin" "production"].
Proof.
  apply (send_role_is_member_or_admin None None "coworker@catalyze.io" true
           true Sample.settings (λ _ _ _, None)); reflexivity.
Defined.

(** * Further properties of the commands *)

(** ** How [CmdList] fails *)

(** X1: the first failing fetch decides what [CmdList] returns: an error of
    the service lookup is returned whatever the other two fetches would
    give, and an error of the fetch of the declarations is returned whatever
    the fetch of the job records would give; nothing is printed. *)
Theorem first_failing_fetch_is_returned (range : RangeOrder) `{iw : IWorker}
    `{isv : IServices} `{ij : IJobs} (svcName : string) :
  (∀ service e,
     RetrieveByLabel svcName = (service, Some e) →
     CmdList range svcName = {| out := []; ending := Return (Some e) |}) ∧
  (∀ service workers e,
     RetrieveByLabel svcName = (Some service, None) →
     Retrieve (ID service) = (workers, Some e) →
     CmdList range svcName = {| out := []; ending := Return (Some e) |}).
Proof.
  split.
  - intros service e Hs. unfold CmdList. by rewrite Hs.
  - intros service workers e Hs Hw. unfold CmdList. by rewrite Hs, Hw.
Qed.

(** X2: when the lookup gives neither a service nor an error, [CmdList]
    returns the error that names the label between quotes and points to the
    services list command, without fetching anything else and without
    printing. *)
Theorem missing_service_is_reported (range : RangeOrder) `{iw : IWorker}
    `{isv : IServices} `{ij : IJobs} (svcName : string) :
  RetrieveByLabel svcName = (None, None) →
  CmdList range svcName
  = {| out := [];
       ending := Return (Some
         ("Could not find a service with the label " +:+ quote +:+ svcName
          +:+ quote +:+ ". You can list services with the " +:+ quote
          +:+ "datica services list" +:+ quote +:+ " command.")) |}.
Proof. intros Hs. unfold CmdList. by rewrite Hs. Qed.

(** With interfaces whose calls return, [CmdList] panics on a nil result
    only. *)
Lemma CmdList_panics_iff (range : RangeOrder) `{iw : IWorker}
    `{isv : IServices} `{ij : IJobs} (svcName : string) :
  valid_range range →
  ending (CmdList range svcName) = Panic ↔
  ∃ service workers jobs,
    RetrieveByLabel svcName = (Some service, None) ∧
    Retrieve (ID service) = (workers, None) ∧
    RetrieveByType (ID service) "worker" 1 1000 = (jobs, None) ∧
    (workers = None ∨
     ∃ D, workers = Some {| Workers := D |} ∧ D ≠ ∅ ∧ jobs = None).
Proof.
  intros Hr. unfold CmdList.
  destruct (RetrieveByLabel svcName) as [[service|] [e|]] eqn:Hs;
    try (split; [done|intros (?&?&?&?&_); congruence]).
  destruct (Retrieve (ID service)) as [workers [e|]] eqn:Hw;
    [split; [done|intros (s&?&?&Hs'&Hw'&_); congruence]|].
  destruct (RetrieveByType (ID service) "worker" 1 1000) as [jobs [e|]] eqn:Hj;
    [split; [done|intros (s&?&?&Hs'&Hw'&Hj'&_); congruence]|].
  destruct workers as [[D]|].
  - simpl. destruct (decide (D = ∅)) as [->|HD].
    + rewrite bool_decide_eq_true_2 by by rewrite init_summary_empty.
      split; [done|].
      intros (s&w&j&Hs'&Hw'&Hj'&[->|(D'&->&HD'&->)]); congruence.
    + rewrite bool_decide_eq_false_2 by by rewrite init_summary_empty.
      destruct jobs as [J|].
      * destruct (tabulate _) as [data total]. split; [done|].
        intros (s&w&j&Hs'&Hw'&Hj'&[->|(D'&->&HD'&->)]); congruence.
      * split; [|done]. intros _. exists service, (Some {| Workers := D |}), None.
        split_and!; try done. right. by exists D.
  - split; [|done]. intros _. exists service, None, jobs.
    split_and!; try done. by left.
Qed.

Lemma CmdList_body_panics_iff (range : RangeOrder) (svcName : string)
    (service : models_Service) (workers : option models_Workers)
    (jobs : option (list models_Job)) :
  valid_range range →
  ending (CmdList_body range svcName service workers jobs) = Panic ↔
  workers = None ∨ ∃ D, workers = Some {| Workers := D |} ∧ D ≠ ∅ ∧ jobs = None.
Proof.
  intros Hr. unfold CmdList_body. destruct workers as [[D]|].
  - simpl. destruct (decide (D = ∅)) as [->|HD].
    + rewrite bool_decide_eq_true_2 by by rewrite init_summary_empty.
      split; [done|]. intros [?|(D' & ? & ? & ?)]; congruence.
    + rewrite bool_decide_eq_false_2 by by rewrite init_summary_empty.
      destruct jobs as [J|].
      * destruct (tabulate _) as [data total]. split; [done|].
        intros [?|(D' & ? & ? & ?)]; congruence.
      * split; [|done]. intros _. right. by exists D.
  - split; [|done]. intros _. by left.
Qed.

(** With interfaces whose calls return, [CmdList_go] is [CmdList]. *)
Lemma CmdList_go_returning (range : RangeOrder) `{iw : IWorker}
    `{isv : IServices} `{ij : IJobs} (svcName : string) :
  CmdList_go range svcName
             (λ label, Some (RetrieveByLabel label))
             (λ svcID, Some (Retrieve svcID))
             (λ svcID type page pageSize,
                Some (RetrieveByType svcID type page pageSize))
  = CmdList range svcName.
Proof.
  unfold CmdList_go, CmdList, CmdList_body, panicked.
  destruct (RetrieveByLabel svcName) as [[service|] [e|]]; reflexivity.
Qed.

(** X3: [CmdList] panics exactly when a call it makes on one of its
    interfaces panics, as a call on a nil interface does (the service lookup;
    the fetch of the declarations once the service is found; the fetch of
    the jobs once the declarations came without error), or when all three
    calls returned without error and either the declarations are a nil
    pointer, or they are not empty and the job records are a nil pointer.
    With interfaces whose calls return, this run is the one of [CmdList]. *)
Theorem panics_exactly_on_nil (range : RangeOrder) (svcName : string)
    (is_RetrieveByLabel : string → option (result models_Service))
    (iw_Retrieve : string → option (result models_Workers))
    (ij_RetrieveByType :
       string → string → Z → Z → option (result (list models_Job))) :
  valid_range range →
  (ending (CmdList_go range svcName is_RetrieveByLabel iw_Retrieve
                      ij_RetrieveByType) = Panic ↔
   is_RetrieveByLabel svcName = None ∨
   ∃ service,
     is_RetrieveByLabel svcName = Some (Some service, None) ∧
     (iw_Retrieve (ID service) = None ∨
      ∃ workers,
        iw_Retrieve (ID service) = Some (workers, None) ∧
        (ij_RetrieveByType (ID service) "worker" 1 1000 = None ∨
         ∃ jobs,
           ij_RetrieveByType (ID service) "worker" 1 1000 = Some (jobs, None) ∧
           (workers = None ∨
            ∃ D, workers = Some {| Workers := D |} ∧ D ≠ ∅ ∧ jobs = None)))) ∧
  (∀ (iw : IWorker) (isv : IServices) (ij : IJobs),
     is_RetrieveByLabel = (λ label, Some (RetrieveByLabel label)) →
     iw_Retrieve = (λ svcID, Some (Retrieve svcID)) →
     ij_RetrieveByType = (λ svcID type page pageSize,
                            Some (RetrieveByType svcID type page pageSize)) →
     CmdList_go range svcName is_RetrieveByLabel iw_Retrieve ij_RetrieveByType
     = CmdList range svcName).
Proof.
  intros Hr. split; [|intros iw isv ij -> -> ->; apply CmdList_go_returning].
  unfold CmdList_go.
  destruct (is_RetrieveByLabel svcName) as [[[service|] [e|]]|] eqn:Hs;
    try (split; [done|intros [?|(s & ? & _)]; congruence]);
    [|split; [|done]; intros _; by left].
  destruct (iw_Retrieve (ID service)) as [[workers [e|]]|] eqn:Hw.
  - split; [done|].
    intros [?|(s & Hs' & [?|(w & ? & _)])]; simplify_eq; congruence.
  - destruct (ij_RetrieveByType (ID service) "worker" 1 1000)
      as [[jobs [e|]]|] eqn:Hj.
    + split; [done|].
      intros [?|(s & Hs' & [?|(w & Hw' & [?|(j & ? & _)])])];
        simplify_eq; congruence.
    + rewrite CmdList_body_panics_iff by done. split.
      * intros Hnil. right. exists service. split; [done|]. right.
        exists workers. split; [done|]. right. by exists jobs.
      * intros [?|(s & Hs' & [?|(w & Hw' & [?|(j & Hj' & Hnil)])])];
          simplify_eq; congruence.
    + split; [|done]. intros _. right. exists service. split; [done|].
      right. exists workers. split; [done|]. by left.
  - split; [|done]. intros _. right. exists service. split; [done|]. by left.
Qed.

(** X4: [CmdList] prints only when it succeeds: a run that returns an error
    or panics has printed nothing, a run that returns without error has
    printed exactly two things, the second being a line, and no run ends in
    a fatal exit. *)
Theorem prints_only_on_success (range : RangeOrder) `{iw : IWorker}
    `{isv : IServices} `{ij : IJobs} (svcName : string) :
  match ending (CmdList range svcName) with
  | Return None =>
      ∃ first line, out (CmdList range svcName) = [first; Printf line]
  | Return (Some _) | Panic => out (CmdList range svcName) = []
  | Fatal _ => False
  end.
Proof.
  unfold CmdList.
  destruct (RetrieveByLabel svcName) as [[service|] [e|]]; try done.
  destruct (Retrieve (ID service)) as [workers [e|]]; [done|].
  destruct (RetrieveByType (ID service) "worker" 1 1000) as [jobs [e|]]; [done|].
  destruct workers as [workers|]; [|done].
  case_bool_decide; [simpl; eauto|].
  destruct jobs as [J|]; [|done].
  destruct (tabulate _) as [data total]. simpl. eauto.
Qed.

(** X5: when the three fetches succeed, [CmdList] renders a table exactly
    when the declarations are not empty, also when there is no job record
    at all. *)
Theorem table_iff_declarations (range : RangeOrder) `{iw : IWorker}
    `{isv : IServices} `{ij : IJobs} (svcName : string)
    (service : models_Service) (D : gmap string Z) (J : list models_Job) :
  valid_range range →
  fetched svcName service D J →
  (∃ data, Render data ∈ out (CmdList range svcName)) ↔ D ≠ ∅.
Proof.
  intros Hr Hf. destruct (decide (D = ∅)) as [->|HD].
  - destruct Hf as (Hs & Hw & Hj).
    rewrite (CmdList_guard range Hr svcName service (Some J)) by done.
    split; [|done]. intros [data Hin]. simpl in Hin.
    apply elem_of_cons in Hin as [?|Hin]; [done|].
    apply elem_of_cons in Hin as [?|Hin]; [done|]. by apply elem_of_nil in Hin.
  - rewrite (CmdList_listed range Hr svcName service D J) by done.
    split; [done|]. intros _. eexists. simpl. apply elem_of_cons. by left.
Qed.

(** X6: of the job directory [CmdList] makes one request only, for the
    first page of 1000 jobs of type worker of the service it found, and only
    once the declarations came without error: two directories that give
    the same answer to that request give the same run. *)
Theorem only_first_page_of_worker_jobs (range : RangeOrder) `{iw : IWorker}
    `{isv : IServices} (ij1 ij2 : IJobs) (svcName : string) :
  (∀ service workers,
     RetrieveByLabel svcName = (Some service, None) →
     Retrieve (ID service) = (workers, None) →
     @RetrieveByType ij1 (ID service) "worker" 1 1000
     = @RetrieveByType ij2 (ID service) "worker" 1 1000) →
  @CmdList range svcName iw isv ij1 = @CmdList range svcName iw isv ij2.
Proof.
  intros Hsame. unfold CmdList.
  destruct (RetrieveByLabel svcName) as [[service|] [e|]] eqn:Hs; try done.
  destruct (Retrieve (ID service)) as [workers [e|]] eqn:Hw; [done|].
  by rewrite (Hsame service workers).
Qed.

(** ** What the table holds *)

Lemma reconcile_dom (range : RangeOrder) D J :
  valid_range range →
  dom (reconcile range D J) = dom D ∪ list_to_set (job_targets J).
Proof.
  intros Hr. apply set_eq. intros t.
  rewrite elem_of_union, !elem_of_dom, elem_of_list_to_set.
  by apply reconcile_key.
Qed.

Lemma target_column_rows (entries : list (string * workerJob)) :
  target_column (row <$> entries) = entries.*1.
Proof.
  unfold target_column. rewrite <- list_fmap_compose.
  by apply list_fmap_ext.
Qed.

(** X7: the table [CmdList] renders has the header and then one row of
    three columns for each target that is declared or named by a job: the
    first cells of the rows are exactly these targets, each once. *)
Theorem table_shape (range : RangeOrder) `{iw : IWorker}
    `{isv : IServices} `{ij : IJobs} (svcName : string)
    (service : models_Service) (D : gmap string Z) (J : list models_Job) :
  valid_range range →
  fetched svcName service D J →
  D ≠ ∅ →
  ∃ rows line,
    out (CmdList range svcName) = [Render (header :: rows); Printf line] ∧
    length rows = size (dom D ∪ list_to_set (job_targets J) : gset string) ∧
    Forall (λ r, length r = 3%nat) rows ∧
    NoDup (target_column rows) ∧
    (∀ t, t ∈ target_column rows ↔ is_Some (D !! t) ∨ t ∈ job_targets J).
Proof.
  intros Hr Hf HD. rewrite (CmdList_listed range Hr svcName service D J) by done.
  do 2 eexists. split_and!; [done|..].
  - rewrite length_fmap, (Hr _ _), length_map_to_list.
    by rewrite <- (reconcile_dom range D J Hr), size_dom.
  - apply Forall_fmap, Forall_forall. by intros [t wj] _.
  - rewrite target_column_rows. by apply range_NoDup_keys.
  - intros t. rewrite target_column_rows, <- (reconcile_key range D J t Hr).
    rewrite list_elem_of_fmap. split.
    + intros ([t' wj] & -> & Hin). exists wj. by apply (range_elem_of range).
    + intros [wj Hwj]. exists (t, wj). split; [done|].
      by apply (range_elem_of range).
Qed.

(** X8: when the three fetches succeed and the declarations are not empty,
    [CmdList] prints every declared target with its declared scale as it
    is, negative ones too, and every target that only job records name
    with scale 0; the third column is the number of running jobs of the
    target. *)
Theorem declared_scale_is_printed (range : RangeOrder) `{iw : IWorker}
    `{isv : IServices} `{ij : IJobs} (svcName : string)
    (service : models_Service) (D : gmap string Z) (J : list models_Job) :
  valid_range range →
  fetched svcName service D J →
  D ≠ ∅ →
  ∃ rows line,
    out (CmdList range svcName) = [Render (header :: rows); Printf line] ∧
    (∀ t s, D !! t = Some s →
       [t; sprintf_d s;
        sprintf_d (GoInt.wrap (Z.of_nat (running_jobs t J)))] ∈ rows) ∧
    (∀ t, D !! t = None → t ∈ job_targets J →
       [t; "0";
        sprintf_d (GoInt.wrap (Z.of_nat (running_jobs t J)))] ∈ rows).
Proof.
  intros Hr Hf HD. rewrite (CmdList_listed range Hr svcName service D J) by done.
  do 2 eexists. split_and!; [done|..].
  - intros t s Ht. apply list_elem_of_fmap.
    exists (t, {| scale := s;
                  running := GoInt.wrap (Z.of_nat (running_jobs t J)) |}).
    split; [done|]. apply (range_elem_of range); [done|].
    by rewrite reconcile_lookup, Ht.
  - intros t Ht Hin. apply list_elem_of_fmap.
    exists (t, {| scale := 0;
                  running := GoInt.wrap (Z.of_nat (running_jobs t J)) |}).
    split; [done|]. apply (range_elem_of range); [done|].
    rewrite reconcile_lookup, Ht by done. by rewrite decide_True.
Qed.

(** ** The running counts add up *)

Lemma sum_running_keys (f : string → nat) (l : list (string * workerJob)) :
  (∀ t wj, (t, wj) ∈ l → running wj = Z.of_nat (f t)) →
  sum_running l = Z.of_nat (sum_list (f <$> l.*1)).
Proof.
  induction l as [|[t wj] l IH]; intros Hl; [done|].
  change (sum_running ((t, wj) :: l)) with (running wj + sum_running l).
  rewrite (Hl t wj) by (apply elem_of_cons; by left).
  rewrite IH by (intros t' wj' Hin; apply Hl, elem_of_cons; by right).
  rewrite !fmap_cons. simpl. lia.
Qed.

Lemma sum_list_zero (ks : list string) : sum_list ((λ _, 0%nat) <$> ks) = 0%nat.
Proof. induction ks as [|k ks IH]; [done|]. by rewrite fmap_cons. Qed.

Lemma sum_list_indicator (a : string) (c : nat) (ks : list string) :
  NoDup ks → a ∈ ks →
  sum_list ((λ t, if decide (a = t) then c else 0%nat) <$> ks) = c.
Proof.
  induction ks as [|k ks IH]; intros Hnd Hin; [by apply elem_of_nil in Hin|].
  apply NoDup_cons in Hnd as [Hk Hnd]. rewrite fmap_cons. simpl.
  destruct (decide (a = k)) as [->|Hne].
  - assert (sum_list ((λ t, if decide (k = t) then c else 0%nat) <$> ks) = 0%nat)
      as ->; [|lia].
    etrans; [|apply (sum_list_zero ks)]. f_equal. apply list_fmap_ext.
    intros i t Ht. rewrite decide_False; [done|]. intros <-.
    apply Hk. by eapply list_elem_of_lookup_2.
  - apply elem_of_cons in Hin as [?|Hin]; [done|]. by rewrite IH.
Qed.

Lemma sum_list_plus (f g : string → nat) (ks : list string) :
  sum_list ((λ t, (f t + g t)%nat) <$> ks)
  = (sum_list (f <$> ks) + sum_list (g <$> ks))%nat.
Proof.
  induction ks as [|k ks IH]; [done|]. rewrite !fmap_cons. simpl.
  rewrite IH. lia.
Qed.

Lemma running_jobs_over_keys (ks : list string) J :
  NoDup ks → (∀ j, j ∈ J → Target j ∈ ks) →
  sum_list ((λ t, running_jobs t J) <$> ks) = running_total J.
Proof.
  intros Hnd. induction J as [|j J IH]; intros Hin.
  - apply sum_list_zero.
  - assert ((λ t, running_jobs t (j :: J)) <$> ks
            = (λ t, ((if decide (Target j = t)
                      then if String.eqb (Status j) "running" then 1 else 0
                      else 0) + running_jobs t J)%nat) <$> ks) as ->
      by (apply list_fmap_ext; intros i t _; apply running_jobs_cons).
    rewrite (sum_list_plus
               (λ t, if decide (Target j = t)
                     then if String.eqb (Status j) "running" then 1%nat else 0%nat
                     else 0%nat)
               (λ t, running_jobs t J)).
    rewrite IH by (intros j' Hj'; apply Hin, elem_of_cons; by right).
    rewrite sum_list_indicator; [|done|apply Hin, elem_of_cons; by left].
    unfold running_total. rewrite filter_cons.
    destruct (String.eqb_spec (Status j) "running") as [Hs|Hs].
    + by rewrite decide_True.
    + by rewrite decide_False.
Qed.

(** X9: the running counts of the summary add up to the number of job
    records with status "running": no running job is lost and none is
    counted twice (for any slice of jobs Go can hold). *)
Theorem running_counts_add_up (range : RangeOrder) (D : gmap string Z)
    (J : list models_Job) :
  valid_range range →
  Z.of_nat (length J) ≤ GoInt.max_int →
  sum_running (range workerJob (reconcile range D J))
  = Z.of_nat (running_total J).
Proof.
  intros Hr Hlen.
  rewrite (sum_running_keys (λ t, running_jobs t J)).
  - f_equal. apply running_jobs_over_keys; [by apply range_NoDup_keys|].
    intros j Hj. apply list_elem_of_fmap.
    destruct (proj2 (reconcile_key range D J (Target j) Hr)) as [wj Hwj].
    { right. unfold job_targets. apply list_elem_of_fmap. eauto. }
    exists (Target j, wj). split; [done|]. by apply (range_elem_of range).
  - intros t wj Hin. apply (range_elem_of range) in Hin; [|done].
    rewrite reconcile_lookup in Hin by done.
    assert (running wj = GoInt.wrap (Z.of_nat (running_jobs t J))) as ->
      by (destruct (D !! t); [|case_decide]; by simplify_eq).
    apply GoIntFacts.wrap_id. pose proof (running_jobs_le t J).
    unfold GoInt.in_range, GoInt.min_int. lia.
Qed.

(** X10: the order of the job records does not matter: a permutation of
    the job records gives the same summary. *)
Theorem job_order_is_irrelevant (range : RangeOrder) (D : gmap string Z)
    (J J' : list models_Job) :
  valid_range range →
  J ≡ₚ J' →
  reconcile range D J = reconcile range D J'.
Proof.
  intros Hr Hperm. apply map_eq. intros t. rewrite !reconcile_lookup by done.
  assert (running_jobs t J = running_jobs t J') as ->
    by (unfold running_jobs; by rewrite Hperm).
  destruct (D !! t); [done|]. unfold job_targets.
  destruct (decide (t ∈ Target <$> J)) as [Hin|Hin].
  - rewrite decide_True; [done|]. by rewrite <- Hperm.
  - rewrite decide_False; [done|]. by rewrite <- Hperm.
Qed.

(** ** Fetching the declarations over HTTP *)

Lemma SWorker_Retrieve_not_nil_nil {Headers : Type}
    `{hm : IHTTPManager Headers} (w : worker_Settings) (svcID : string) :
  SWorker_Retrieve w svcID ≠ (None, None).
Proof.
  unfold SWorker_Retrieve.
  destruct (Get _ _ _) as [[resp statusCode] [e|]]; [done|].
  by destruct (ConvertResp _ _ _) as [decoded [e|]].
Qed.

(** X11: [Retrieve] gives a pointer exactly when it gives no error, never
    both and never neither. It asks for the workers of the service below
    its environment on the PaaS host, with the session headers; an error of
    that request is returned as it is, and so is an error of the conversion
    of the response, whatever the conversion had already decoded. *)
Theorem Retrieve_pointer_or_error {Headers : Type} `{hm : IHTTPManager Headers}
    (w : worker_Settings) (svcID : string) :
  let request :=
    Get None
        (PaasHost w +:+ PaasHostVersion w +:+ "/environments/"
         +:+ EnvironmentID w +:+ "/services/" +:+ svcID +:+ "/workers")
        (GetHeaders (SessionToken w) (Version w) (Pod w) (UsersID w)) in
  (is_Some (SWorker_Retrieve w svcID).1 ↔ (SWorker_Retrieve w svcID).2 = None) ∧
  (∀ resp statusCode e,
     request = (resp, statusCode, Some e) →
     SWorker_Retrieve w svcID = (None, Some e)) ∧
  (∀ resp statusCode decoded e,
     request = (resp, statusCode, None) →
     ConvertResp resp statusCode {| Workers := ∅ |} = (decoded, Some e) →
     SWorker_Retrieve w svcID = (None, Some e)) ∧
  (∀ resp statusCode decoded,
     request = (resp, statusCode, None) →
     ConvertResp resp statusCode {| Workers := ∅ |} = (decoded, None) →
     SWorker_Retrieve w svcID = (Some decoded, None)).
Proof.
  intros request. unfold SWorker_Retrieve, workers_url. fold request.
  split_and!.
  - destruct request as [[resp statusCode] [e|]]; simpl.
    + split; [by intros []|done].
    + destruct (ConvertResp _ _ _) as [decoded [e|]]; simpl.
      * split; [by intros []|done].
      * split; [done|]. by eexists.
  - by intros resp statusCode e ->.
  - intros resp statusCode decoded e -> Hc. by rewrite Hc.
  - intros resp statusCode decoded -> Hc. by rewrite Hc.
Qed.

(** X12: with an [SWorker] fetching the declarations, [CmdList] never
    panics on the declarations it gets back. A panic comes from the service
    lookup panicking, or, the service being found, from an [SWorker] whose
    receiver, settings or HTTP manager is nil (line 72), from the fetch of
    the jobs panicking, or from a job directory that gives neither job
    records nor an error. With an [SWorker] that is ready and interfaces
    whose calls return, the run is the one of [CmdList] over [SWorker]. *)
Theorem no_panic_on_http_declarations (range : RangeOrder) {Headers : Type}
    (p : SWorker_ptr Headers) (svcName : string)
    (is_RetrieveByLabel : string → option (result models_Service))
    (ij_RetrieveByType :
       string → string → Z → Z → option (result (list models_Job))) :
  valid_range range →
  (ending (CmdList_go range svcName is_RetrieveByLabel (SWorker_Retrieve_go p)
                      ij_RetrieveByType) = Panic →
   is_RetrieveByLabel svcName = None ∨
   ∃ service,
     is_RetrieveByLabel svcName = Some (Some service, None) ∧
     ((∀ w hm, p ≠ SWorker_ready w hm) ∨
      ij_RetrieveByType (ID service) "worker" 1 1000 = None ∨
      ij_RetrieveByType (ID service) "worker" 1 1000 = Some (None, None))) ∧
  (∀ (w : worker_Settings) (hm : IHTTPManager Headers)
     (isv : IServices) (ij : IJobs),
     p = SWorker_ready w hm →
     is_RetrieveByLabel = (λ label, Some (RetrieveByLabel label)) →
     ij_RetrieveByType = (λ svcID type page pageSize,
                            Some (RetrieveByType svcID type page pageSize)) →
     CmdList_go range svcName is_RetrieveByLabel (SWorker_Retrieve_go p)
                ij_RetrieveByType
     = @CmdList range svcName (SWorker w) isv ij).
Proof.
  intros Hr. split.
  - unfold CmdList_go.
    destruct (is_RetrieveByLabel svcName) as [[[service|] [e|]]|] eqn:Hs;
      try done; [|by left].
    intros Hpanic. right. exists service. split; [done|].
    destruct p as [| |w|w hm]; try (by left). right.
    cbn [SWorker_Retrieve_go] in Hpanic.
    pose proof (@SWorker_Retrieve_not_nil_nil Headers hm w (ID service)) as Hnn.
    destruct (@SWorker_Retrieve Headers hm w (ID service))
      as [[workers|] [e|]]; try done.
    destruct (ij_RetrieveByType (ID service) "worker" 1 1000)
      as [[jobs [e|]]|]; [done| |by left].
    apply CmdList_body_panics_iff in Hpanic as [?|(D & _ & _ & ->)];
      [done|by right|done].
  - intros w hm isv ij -> -> ->.
    exact (@CmdList_go_returning range (SWorker w) isv ij svcName).
Qed.

(** X13: with [SWorker] fetching the declarations, a failure of the HTTP
    request for the workers of the service that was found is the error
    [CmdList] returns, and nothing is printed. *)
Theorem http_failure_is_returned (range : RangeOrder) {Headers : Type}
    `{hm : IHTTPManager Headers} (w : worker_Settings)
    `{isv : IServices} `{ij : IJobs} (svcName : string)
    (service : models_Service) (resp : string) (statusCode : Z) (e : error) :
  RetrieveByLabel svcName = (Some service, None) →
  Get None (workers_url w (ID service))
      (GetHeaders (SessionToken w) (Version w) (Pod w) (UsersID w))
  = (resp, statusCode, Some e) →
  @CmdList range svcName (SWorker w) isv ij
  = {| out := []; ending := Return (Some e) |}.
Proof.
  intros Hs Hget. unfold CmdList. rewrite Hs.
  change (@Retrieve (SWorker w) (ID service))
    with (SWorker_Retrieve w (ID service)).
  unfold SWorker_Retrieve. by rewrite Hget.
Qed.

(** ** The actions of the invites sub-commands *)

(** X14: [invites list], [invites rm] and [invites send] call their
    operation exactly when both sign-in and the association check succeed,
    [invites accept] exactly when sign-in succeeds; each calls it once at
    most, with the environment name of the settings or the argument of the
    command line. *)
Theorem invite_operations_are_gated (signin association : option error)
    (settings : models_Settings) (inviteCode inviteID email : string)
    (member adminRole : bool)
    (CmdAccept invites_CmdList CmdRm : string → option error)
    (CmdSend : string → string → string → option error) :
  (calls (AcceptSubCmd_Action signin inviteCode CmdAccept)
   = if decide (signin = None) then [CallAccept inviteCode] else []) ∧
  (calls (ListSubCmd_Action signin association settings invites_CmdList)
   = if decide (signin = None ∧ association = None)
     then [CallList (EnvironmentName settings)] else []) ∧
  (calls (RmSubCmd_Action signin association inviteID CmdRm)
   = if decide (signin = None ∧ association = None)
     then [CallRm inviteID] else []) ∧
  (out (SendSubCmd_Action signin association email member adminRole settings
                          CmdSend)
   = if decide (signin = None ∧ association = None)
     then [CallSend email (send_role adminRole) (EnvironmentName settings)]
     else []).
Proof.
  unfold AcceptSubCmd_Action, ListSubCmd_Action, RmSubCmd_Action,
    SendSubCmd_Action.
  destruct signin as [es|], association as [ea|]; simpl;
    destruct (CmdAccept inviteCode), (invites_CmdList (EnvironmentName settings)),
      (CmdRm inviteID), (CmdSend email (send_role adminRole) (EnvironmentName settings));
    split_and!; try done;
    try (rewrite decide_False by (by intros [??]); done);
    try (rewrite decide_True by done; done).
Qed.

(** X15: each invites action ends in a fatal exit with the first error
    among sign-in, the association check (which accept does not make) and
    the operation, in this order, and returns when there is none: an error
    of sign-in hides one of the association check. *)
Theorem invite_actions_fail_on_first_error (signin association : option error)
    (settings : models_Settings) (inviteCode inviteID email : string)
    (member adminRole : bool)
    (CmdAccept invites_CmdList CmdRm : string → option error)
    (CmdSend : string → string → string → option error) :
  let ending_of (e : option error) :=
    match e with Some e => Fatal e | None => Return None end in
  fate (AcceptSubCmd_Action signin inviteCode CmdAccept)
  = ending_of (first_error [signin; CmdAccept inviteCode]) ∧
  fate (ListSubCmd_Action signin association settings invites_CmdList)
  = ending_of (first_error [signin; association;
                            invites_CmdList (EnvironmentName settings)]) ∧
  fate (RmSubCmd_Action signin association inviteID CmdRm)
  = ending_of (first_error [signin; association; CmdRm inviteID]) ∧
  ending (SendSubCmd_Action signin association email member adminRole settings
                            CmdSend)
  = ending_of (first_error [signin; association;
                            CmdSend email (send_role adminRole)
                                    (EnvironmentName settings)]).
Proof.
  unfold AcceptSubCmd_Action, ListSubCmd_Action, RmSubCmd_Action,
    SendSubCmd_Action.
  destruct signin as [es|], association as [ea|]; simpl;
    destruct (CmdAccept inviteCode), (invites_CmdList (EnvironmentName settings)),
      (CmdRm inviteID), (CmdSend email (send_role adminRole) (EnvironmentName settings));
    by split_and!.
Qed.

(** ** The further properties at sample inputs *)

Lemma first_failing_fetch_is_returned_witness :
  @CmdList range_forward "code" (Sample.workers Sample.D1)
           {| RetrieveByLabel := λ _, (None, Some "401 Unauthorized") |}
           (Sample.jobs_failing "503 Service Unavailable")
  = {| out := []; ending := Return (Some "401 Unauthorized") |}.
Proof.
  apply (proj1 (@first_failing_fetch_is_returned range_forward
                  (Sample.workers Sample.D1)
                  {| RetrieveByLabel := λ _, (None, Some "401 Unauthorized") |}
                  (Sample.jobs_failing "503 Service Unavailable") "code")
               None "401 Unauthorized").
  reflexivity.
Defined.

Lemma missing_service_is_reported_witness :
  ending (@CmdList range_forward "code" (Sample.workers Sample.D1)
                   {| RetrieveByLabel := λ _, (None, None) |}
                   (Sample.jobs Sample.J1))
  = Return (Some ("Could not find a service with the label " +:+ quote
                  +:+ "code" +:+ quote +:+ ". You can list services with the "
                  +:+ quote +:+ "datica services list" +:+ quote
                  +:+ " command.")).
Proof.
  rewrite (@missing_service_is_reported range_forward (Sample.workers Sample.D1)
             {| RetrieveByLabel := λ _, (None, None) |} (Sample.jobs Sample.J1)
             "code" eq_refl).
  reflexivity.
Defined.

(** A nil worker interface: the run panics at the fetch of the
    declarations. *)
Lemma panics_exactly_on_nil_witness :
  valid_range range_forward ∧
  ending (CmdList_go range_forward "code"
            (λ label, Some (@RetrieveByLabel Sample.services label))
            (λ _, None)
            (λ svcID type page pageSize,
               Some (@RetrieveByType (Sample.jobs Sample.J1) svcID type page
                                     pageSize)))
  = Panic.
Proof.
  split; [exact range_forward_valid|].
  apply (proj1 (panics_exactly_on_nil range_forward "code"
                  (λ label, Some (@RetrieveByLabel Sample.services label))
                  (λ _, None)
                  (λ svcID type page pageSize,
                     Some (@RetrieveByType (Sample.jobs Sample.J1) svcID type
                                           page pageSize))
                  range_forward_valid)).
  right. exists Sample.service. split; [reflexivity|]. left. reflexivity.
Defined.

(** Scenario 1 without any job record still renders the table. *)
Lemma table_iff_declarations_witness :
  valid_range range_forward ∧
  @fetched (Sample.workers Sample.D1) Sample.services (Sample.jobs [])
           "code" Sample.service Sample.D1 [] ∧
  Sample.D1 ≠ ∅ ∧
  ∃ data, Render data ∈ out (@CmdList range_forward "code"
                                      (Sample.workers Sample.D1)
                                      Sample.services (Sample.jobs [])).
Proof.
  split_and!;
    [exact range_forward_valid|apply sample_fetched|exact D1_not_empty|].
  apply (@table_iff_declarations range_forward (Sample.workers Sample.D1)
           Sample.services (Sample.jobs []) "code" Sample.service Sample.D1 []
           range_forward_valid (sample_fetched _ _)).
  exact D1_not_empty.
Defined.

(** A directory that answers for service svc-1 only, and only its first
    page of worker jobs, gives the run of scenario 1. *)
Lemma only_first_page_of_worker_jobs_witness :
  @CmdList range_forward "code" (Sample.workers Sample.D1) Sample.services
           {| RetrieveByType := λ svcID type page pageSize,
                if (String.eqb svcID "svc-1" && String.eqb type "worker"
                    && (page =? 1) && (pageSize =? 1000))%bool
                then (Some Sample.J1, None)
                else (None, Some "unexpected request") |}
  = @CmdList range_forward "code" (Sample.workers Sample.D1) Sample.services
             (Sample.jobs Sample.J1).
Proof.
  apply (@only_first_page_of_worker_jobs range_forward
           (Sample.workers Sample.D1) Sample.services).
  intros service workers Hs Hw. cbn in Hs. injection Hs as <-.
  reflexivity.
Defined.

(** Scenario 3: one declared and one undeclared target, two rows. *)
Lemma table_shape_witness :
  valid_range range_forward ∧
  @fetched (Sample.workers Sample.D3) Sample.services (Sample.jobs Sample.J3)
           "code" Sample.service Sample.D3 Sample.J3 ∧
  Sample.D3 ≠ ∅ ∧
  ∃ rows line,
    out (@CmdList range_forward "code" (Sample.workers Sample.D3)
                  Sample.services (Sample.jobs Sample.J3))
    = [Render (header :: rows); Printf line] ∧
    length rows
    = size (dom Sample.D3 ∪ list_to_set (job_targets Sample.J3) : gset string) ∧
    NoDup (target_column rows) ∧
    "worker-a" ∈ target_column rows ∧
    "worker-x" ∈ target_column rows.
Proof.
  destruct (@table_shape range_forward (Sample.workers Sample.D3)
              Sample.services (Sample.jobs Sample.J3) "code" Sample.service
              Sample.D3 Sample.J3 range_forward_valid (sample_fetched _ _)
              D3_not_empty)
    as (rows & line & Hout & Hlen & _ & Hnodup & Hcells).
  split_and!;
    [exact range_forward_valid|apply sample_fetched|exact D3_not_empty|].
  exists rows, line. split_and!; [exact Hout|exact Hlen|exact Hnodup|..].
  - apply Hcells. left. exists 1. vm_compute. reflexivity.
  - apply Hcells. right. apply elem_of_cons. left. reflexivity.
Defined.

(** Scenario 3: worker-a is printed with its scale 1 and worker-x with 0. *)
Lemma declared_scale_is_printed_witness :
  valid_range range_forward ∧
  Sample.D3 ≠ ∅ ∧
  Sample.D3 !! "worker-a" = Some 1 ∧
  Sample.D3 !! "worker-x" = None ∧
  "worker-x" ∈ job_targets Sample.J3 ∧
  ∃ rows line,
    out (@CmdList range_forward "code" (Sample.workers Sample.D3)
                  Sample.services (Sample.jobs Sample.J3))
    = [Render (header :: rows); Printf line] ∧
    ["worker-a"; sprintf_d 1;
     sprintf_d (GoInt.wrap (Z.of_nat (running_jobs "worker-a" Sample.J3)))]
    ∈ rows ∧
    ["worker-x"; "0";
     sprintf_d (GoInt.wrap (Z.of_nat (running_jobs "worker-x" Sample.J3)))]
    ∈ rows.
Proof.
  destruct (@declared_scale_is_printed range_forward (Sample.workers Sample.D3)
              Sample.services (Sample.jobs Sample.J3) "code" Sample.service
              Sample.D3 Sample.J3 range_forward_valid (sample_fetched _ _)
              D3_not_empty)
    as (rows & line & Hout & Hdeclared & Hjobs).
  assert (Sample.D3 !! "worker-a" = Some 1) as Ha by (vm_compute; reflexivity).
  assert (Sample.D3 !! "worker-x" = None) as Hx by (vm_compute; reflexivity).
  assert ("worker-x" ∈ job_targets Sample.J3) as Hin
    by (apply elem_of_cons; left; reflexivity).
  split_and!;
    [exact range_forward_valid|exact D3_not_empty|exact Ha|exact Hx|exact Hin|].
  exists rows, line.
  split_and!; [exact Hout|exact (Hdeclared _ _ Ha)|exact (Hjobs _ Hx Hin)].
Defined.

(** Scenario 1: the running counts 2 and 0 add up to the two running jobs. *)
Lemma running_counts_add_up_witness :
  valid_range range_forward ∧
  (Z.of_nat (length Sample.J1) ≤ GoInt.max_int) ∧
  sum_running (range_forward workerJob
                 (reconcile range_forward Sample.D1 Sample.J1))
  = Z.of_nat (running_total Sample.J1).
Proof.
  assert (Z.of_nat (length Sample.J1) ≤ GoInt.max_int) as Hlen
    by (vm_compute; discriminate).
  split_and!; [exact range_forward_valid|exact Hlen|].
  exact (running_counts_add_up range_forward Sample.D1 Sample.J1
           range_forward_valid Hlen).
Defined.

(** Scenario 1 with its job records backwards. *)
Lemma job_order_is_irrelevant_witness :
  valid_range range_forward ∧
  Sample.J1 ≡ₚ reverse Sample.J1 ∧
  reconcile range_forward Sample.D1 Sample.J1
  = reconcile range_forward Sample.D1 (reverse Sample.J1).
Proof.
  assert (Sample.J1 ≡ₚ reverse Sample.J1) as Hperm
    by (symmetry; apply reverse_Permutation).
  split_and!; [exact range_forward_valid|exact Hperm|].
  exact (job_order_is_irrelevant range_forward Sample.D1 Sample.J1
           (reverse Sample.J1) range_forward_valid Hperm).
Defined.

(** An unreachable host: the error of the request comes back. *)
Lemma Retrieve_pointer_or_error_witness :
  @SWorker_Retrieve (list string) SampleHTTP.offline SampleHTTP.settings "svc-1"
  = (None, Some "connection refused").
Proof.
  destruct (@Retrieve_pointer_or_error (list string) SampleHTTP.offline
              SampleHTTP.settings "svc-1") as (_ & Hget & _ & _).
  apply (Hget "" 0 "connection refused"). reflexivity.
Defined.

(** Declarations over HTTP and a job directory that gives neither jobs nor
    an error: the run panics, and not on the declarations. *)
Lemma no_panic_on_http_declarations_witness :
  valid_range range_forward ∧
  ending (CmdList_go range_forward "code"
            (λ label, Some (@RetrieveByLabel Sample.services label))
            (SWorker_Retrieve_go
               (SWorker_ready SampleHTTP.settings SampleHTTP.manager))
            (λ _ _ _ _, Some (None, None)))
  = Panic ∧
  ∃ service,
    @RetrieveByLabel Sample.services "code" = (Some service, None).
Proof.
  assert (ending (CmdList_go range_forward "code"
                    (λ label, Some (@RetrieveByLabel Sample.services label))
                    (SWorker_Retrieve_go
                       (SWorker_ready SampleHTTP.settings SampleHTTP.manager))
                    (λ _ _ _ _, Some (None, None)))
          = Panic) as Hpanic by (vm_compute; reflexivity).
  split_and!; [exact range_forward_valid|exact Hpanic|].
  destruct (proj1 (no_panic_on_http_declarations range_forward
                     (SWorker_ready SampleHTTP.settings SampleHTTP.manager)
                     "code"
                     (λ label, Some (@RetrieveByLabel Sample.services label))
                     (λ _ _ _ _, Some (None, None)) range_forward_valid)
                  Hpanic)
    as [Hnil|(service & Hs & _)]; [discriminate Hnil|].
  exists service. cbn in Hs. injection Hs as <-. reflexivity.
Defined.

(** An unreachable host: [CmdList] returns the error of the request. *)
Lemma http_failure_is_returned_witness :
  @CmdList range_forward "code"
           (@SWorker (list string) SampleHTTP.offline SampleHTTP.settings)
           Sample.services (Sample.jobs Sample.J1)
  = {| out := []; ending := Return (Some "connection refused") |}.
Proof.
  apply (@http_failure_is_returned range_forward (list string)
           SampleHTTP.offline SampleHTTP.settings Sample.services
           (Sample.jobs Sample.J1) "code" Sample.service "" 0
           "connection refused"); reflexivity.
Defined.
